(** * calcium-import: the ICS import pipeline of [src/index.ts]

    A shallow embedding of the per-record pipeline of [ImportICS]
    (extraction of the properties of a calendar component, validation against
    the zod [shape], date-range resolution, cutoff filter, category lookup)
    and the properties of it that the specification states.

    Conventions of the model.
    - A JavaScript string is the list of its UTF-16 code units.
    - A JavaScript number is a mathematical integer ([Z]); the components of
      an iCalendar date are integers.  Rounding is outside the model; the
      range limit of [Date] time values, 100,000,000 days either way of the
      epoch, is in it: beyond it a date is invalid.
    - Local time has a fixed offset, so that a local midnight is a multiple
      of a day's milliseconds; time values are local milliseconds.
    - What the host supplies to dayjs (the current date, the parser of date
      strings, the time zone) is gathered in a record [Env] that the
      pipeline takes as an argument.
    - A component is what [getAllProperties()] returns; reading the values
      of a property may throw.
    - [validate] of ./validate is not among the sources; it is modelled from
      the specification.

    The file runs from the libraries the source calls (regular expressions,
    dayjs, zod, ical.js) to the definitions of index.ts, then to the
    properties. *)

From Stdlib Require Import ZArith NArith List Bool Lia.
From Stdlib Require Import Strings.String Strings.Ascii DecimalString.
From Stdlib Require Import Sorted DecimalPos.
Import ListNotations.

Local Open Scope Z_scope.
Set Warnings "-register-all".

(** ** JavaScript strings and values *)

Module JS.

Definition codeunit := N.
Definition jsstring := list codeunit.

(** An ASCII literal as a JavaScript string. *)
Definition str (s : string) : jsstring :=
  map N_of_ascii (list_ascii_of_string s).

Fixpoint eqb (a b : jsstring) : bool :=
  match a, b with
  | [], [] => true
  | x :: a', y :: b' => N.eqb x y && eqb a' b'
  | _, _ => false
  end.

(** [!!s] on a string: only the empty string is falsy. *)
Definition truthy (s : jsstring) : bool :=
  match s with [] => false | _ :: _ => true end.

(** A value that may be [undefined] or [null]. *)
Inductive nullable (A : Type) : Type :=
| Undefined
| Null
| Val (a : A).
Arguments Undefined {A}.
Arguments Null {A}.
Arguments Val {A} a.

(** [a ?? b] *)
Definition nullish {A} (a b : nullable A) : nullable A :=
  match a with
  | Undefined | Null => b
  | Val _ => a
  end.

(** The values a property of a calendar component can hold: scalars and
    objects (an [ICAL.Time], an [ICAL.Recur]) seen through their fields. *)
Inductive Value : Type :=
| VUndefined
| VNull
| VBool (b : bool)
| VNumber (n : Z)
| VString (s : jsstring)
| VObject (fields : list (jsstring * Value)).

(** A plain object: its own properties in insertion order. *)
Definition Obj := list (jsstring * Value).

(** [obj[key]]: [undefined] when there is no such property. *)
Fixpoint get (obj : Obj) (key : jsstring) : Value :=
  match obj with
  | [] => VUndefined
  | (k, v) :: rest => if eqb k key then v else get rest key
  end.

(** [obj[key] = v]: an existing property keeps its place. *)
Fixpoint set (obj : Obj) (key : jsstring) (v : Value) : Obj :=
  match obj with
  | [] => [(key, v)]
  | (k, w) :: rest =>
      if eqb k key then (k, v) :: rest else (k, w) :: set rest key v
  end.

(** [vs[0]] *)
Definition first (vs : list Value) : Value :=
  match vs with
  | [] => VUndefined
  | v :: _ => v
  end.

(** [String(n)] for an integer. *)
Definition String_of_Z (n : Z) : jsstring :=
  str (NilZero.string_of_int (Z.to_int n)).

(** Exceptions: a computation returns or throws. *)
Inductive Exc (A : Type) : Type :=
| Ok (a : A)
| Throw (e : jsstring).
Arguments Ok {A} a.
Arguments Throw {A} e.

End JS.
Import JS.

(** ** Regular expressions

    The fragment of JavaScript's regular expressions that the source uses,
    matched by backtracking as the engine does: a quantifier is greedy and
    gives back what the rest of the pattern needs. *)

Module Regex.

Inductive regex : Type :=
| Lit (c : codeunit)              (* a literal character *)
| Digit                           (* \d *)
| Word                            (* \w *)
| Dot                             (* .  *)
| Seq (r1 r2 : regex)
| Repeat (n : nat) (r : regex)    (* r{n} *)
| Plus (r : regex)                (* r+ *)
| Group (r : regex).              (* (r) *)

Definition is_digit (c : codeunit) : bool :=
  (48 <=? c)%N && (c <=? 57)%N.

Definition is_word (c : codeunit) : bool :=
  is_digit c
  || ((65 <=? c)%N && (c <=? 90)%N)
  || ((97 <=? c)%N && (c <=? 122)%N)
  || (c =? 95)%N.

(** LF, CR, U+2028 and U+2029 are what [.] refuses without the s flag. *)
Definition is_line_terminator (c : codeunit) : bool :=
  (c =? 10)%N || (c =? 13)%N || (c =? 8232)%N || (c =? 8233)%N.

Definition one (p : codeunit -> bool) {X} (s : jsstring)
    (k : jsstring -> option X) : option X :=
  match s with
  | c :: s' => if p c then k s' else None
  | [] => None
  end.

(** What was consumed between the input [s] and its suffix [s']. *)
Definition consumed (s s' : jsstring) : jsstring :=
  firstn (List.length s - List.length s') s.

(** A matcher takes the input, the captures so far and what to do with the
    rest of the input after a match; it answers [None] when every
    alternative fails. *)
Definition matcher (X : Type) : Type :=
  jsstring -> list jsstring -> (jsstring -> list jsstring -> option X)
  -> option X.

(** [r{n}]: [n] matches of [m] in a row. *)
Fixpoint repeat_loop {X} (m : matcher X) (n : nat) : matcher X :=
  fun s caps k =>
    match n with
    | O => k s caps
    | S n' => m s caps (fun s' caps' => repeat_loop m n' s' caps' k)
    end.

(** [r+]: one match of [m], then as many more as the input gives; when the
    rest of the pattern fails after them, one fewer.  No more matches than
    [fuel] are tried, and [fuel] is taken above the length of the input. *)
Fixpoint plus_loop {X} (m : matcher X) (fuel : nat) : matcher X :=
  fun s caps k =>
    match fuel with
    | O => None
    | S fuel' =>
        m s caps (fun s' caps' =>
          match plus_loop m fuel' s' caps' k with
          | Some x => Some x
          | None => k s' caps'
          end)
    end.

(** [rmatch r]: the matcher of [r]. *)
Fixpoint rmatch {X} (r : regex) {struct r} : matcher X :=
  fun s caps k =>
    match r with
    | Lit c => one (N.eqb c) s (fun s' => k s' caps)
    | Digit => one is_digit s (fun s' => k s' caps)
    | Word => one is_word s (fun s' => k s' caps)
    | Dot =>
        one (fun c => negb (is_line_terminator c)) s (fun s' => k s' caps)
    | Seq r1 r2 =>
        rmatch r1 s caps (fun s' caps' => rmatch r2 s' caps' k)
    | Repeat n r1 => repeat_loop (rmatch r1) n s caps k
    | Plus r1 => plus_loop (rmatch r1) (S (List.length s)) s caps k
    | Group r1 =>
        rmatch r1 s caps (fun s' caps' => k s' (caps' ++ [consumed s s']))
    end.

(** The characters of a literal, in sequence, then [r]. *)
Fixpoint lits (s : jsstring) (r : regex) : regex :=
  match s with
  | [] => r
  | c :: s' => Seq (Lit c) (lits s' r)
  end.

(** [s.match(/^r$/)]: the captures of the match of the whole of [s]. *)
Definition match_anchored (r : regex) (s : jsstring)
    : option (list jsstring) :=
  rmatch r s [] (fun s' caps =>
    match s' with [] => Some caps | _ :: _ => None end).

(** [s.replace(/^r$/, '$1')]: the first group in place of the match, which
    is the whole string; [s] itself when there is no match. *)
Definition replace_anchored_by_group1 (r : regex) (s : jsstring)
    : jsstring :=
  match match_anchored r s with
  | Some caps => nth 0%nat caps []
  | None => s
  end.

End Regex.
Import Regex.

(** ** index.ts: the transforms of the shape *)

Definition REPLACEMENT_CHARACTER : codeunit := 65533%N.       (* U+FFFD *)
Definition RIGHT_SINGLE_QUOTATION_MARK : codeunit := 8217%N.  (* U+2019 *)

(** [str.replace(/[\uFFFD]/g, '\u2019')] *)
Definition replace_artifact (s : jsstring) : jsstring :=
  map (fun c => if (c =? REPLACEMENT_CHARACTER)%N
                then RIGHT_SINGLE_QUOTATION_MARK else c) s.

(** [fixApostrophe(str?: string)]: [undefined] for an absent or empty
    string, the repaired string otherwise. *)
Definition fixApostrophe (str : option jsstring) : option jsstring :=
  match str with
  | None => None
  | Some s =>
      if (List.length s =? 0)%nat then None else Some (replace_artifact s)
  end.

(** [/^\d{10}-(\w+)-\d{6}@afosterri.org$/] *)
Definition uid_re : regex :=
  Seq (Repeat 10 Digit)
    (Seq (Lit 45%N)
      (Seq (Group (Plus Word))
        (Seq (Lit 45%N)
          (Seq (Repeat 6 Digit)
            (lits (JS.str "@afosterri")
              (Seq Dot
                (lits (JS.str "or") (Lit 103%N)))))))).

(** [extractCalciumId(id)] *)
Definition extractCalciumId (id : jsstring) : Exc jsstring :=
  match match_anchored uid_re id with
  | None => Throw (JS.str "bad id")
  | Some _ => Ok (replace_anchored_by_group1 uid_re id)
  end.

(** ** dayjs, with its objectSupport plugin

    A [Dayjs] wraps a [Date]: a time value in milliseconds, or none for an
    invalid date. *)

Module Dayjs.

Definition t := option Z.

(** The current local date, which the plugin falls back on. *)
Record Clock := { now_year : Z; now_month : Z; now_date : Z }.

(** What the host supplies: the clock, [dayjs(s)] for a string [s] (the
    library's own pattern, then the engine's [Date] parser), and the time
    zone: the minutes that local time is ahead of UTC, less than a day
    either way. *)
Record Env := {
  now : Clock;
  of_string : jsstring -> t;
  zone : Z;
  zone_in_range : (Z.abs zone <? 1440) = true
}.

Definition msPerDay : Z := 86400000.
Definition msPerMinute : Z := 60000.

(** The largest time value of a [Date]: 100,000,000 days. *)
Definition maxTime : Z := 8640000000000000.

(** ECMAScript's TimeClip, on the UTC time of a local time: beyond
    100,000,000 days from the epoch there is no date. *)
Definition TimeClip (zone local : Z) : t :=
  if Z.abs (local - zone * msPerMinute) <=? maxTime then Some local
  else None.

(** The day number, counted from 1970-01-01, of day [d] of month [m]
    (1 to 12) of year [y] of the proleptic Gregorian calendar. *)
Definition days_from_civil (y m d : Z) : Z :=
  let y' := if m <=? 2 then y - 1 else y in
  let era := y' / 400 in
  let yoe := y' - era * 400 in
  let doy := (153 * (if 2 <? m then m - 3 else m + 9) + 2) / 5 + d - 1 in
  let doe := yoe * 365 + yoe / 4 - yoe / 100 + doy in
  era * 146097 + doe - 719468.

(** The year, month (1 to 12) and day of the month of a day number. *)
Definition civil_from_days (z : Z) : Z * Z * Z :=
  let z' := z + 719468 in
  let era := z' / 146097 in
  let doe := z' - era * 146097 in
  let yoe := (doe - doe / 1460 + doe / 36524 - doe / 146096) / 365 in
  let doy := doe - (365 * yoe + yoe / 4 - yoe / 100) in
  let mp := (5 * doy + 2) / 153 in
  let d := doy - (153 * mp + 2) / 5 + 1 in
  let m := if mp <? 10 then mp + 3 else mp - 9 in
  (if m <=? 2 then yoe + era * 400 + 1 else yoe + era * 400, m, d).

(** ECMAScript's MakeDay: the month (from 0) carries into the year, the
    date counts on from the first of the month. *)
Definition MakeDay (year month date : Z) : Z :=
  let ym := year + month / 12 in
  let mn := month mod 12 in
  days_from_civil ym (mn + 1) 1 + date - 1.

(** [new Date(y, M, d)]: a year from 0 to 99 is a year of the 1900s; the
    local midnight of the day is a date when its UTC time is within the
    range of time values.  Node's engine, V8, gives no day at all to a year
    beyond 1,000,000 or a month beyond 10,000,000 either way. *)
Definition new_Date (zone : Z) (y M d : Z) : t :=
  let yr := if (0 <=? y) && (y <=? 99) then 1900 + y else y in
  if (Z.abs yr <=? 1000000) && (Z.abs M <=? 10000000)
  then TimeClip zone (MakeDay yr M d * msPerDay)
  else None.

(** [dayjs({ year, month, day })]: the plugin reads a unit that is 0 (for
    the month, below 0) as missing. *)
Definition of_object (env : Env) (year month day : Z) : t :=
  let d := if day =? 0
           then (if (year =? 0) && negb (0 <=? month)
                 then now_date (now env) else 1)
           else day in
  let y := if year =? 0 then now_year (now env) else year in
  let M := if 0 <=? month then month
           else (if (year =? 0) && (day =? 0)
                 then now_month (now env) else 0) in
  new_Date (zone env) y M d.

(** [padStart(n, length, '0')] of the library's utilities. *)
Definition padStart (n : Z) (len : nat) : jsstring :=
  let s := String_of_Z n in
  if (len <=? List.length s)%nat then s
  else repeat 48%N (len - List.length s) ++ s.

(** [d.format('YYYY-MM-DD')] *)
Definition format_YYYY_MM_DD (d : t) : jsstring :=
  match d with
  | None => JS.str "Invalid Date"
  | Some ms =>
      let '(y, m, dd) := civil_from_days (ms / msPerDay) in
      padStart y 4 ++ [45%N] ++ padStart m 2 ++ [45%N] ++ padStart dd 2
  end.

(** [a.isBefore(b)]: a comparison of time values, false when either date
    is invalid. *)
Definition isBefore (a b : t) : bool :=
  match a, b with
  | Some x, Some y => x <? y
  | _, _ => false
  end.

(** [a.isAfter(b)] *)
Definition isAfter (a b : t) : bool :=
  match a, b with
  | Some x, Some y => y <? x
  | _, _ => false
  end.

Definition digit_value (c : codeunit) : Z := Z.of_N c - 48.

(** The library's pattern on a string of the form YYYY-MM-DD: the local
    date [new Date(YYYY, MM - 1 || 0, DD)], in the time zone [zone]. *)
Definition of_iso_date (zone : Z) (s : jsstring) : t :=
  match s with
  | [y1; y2; y3; y4; h1; m1; m2; h2; d1; d2] =>
      if forallb is_digit [y1; y2; y3; y4; m1; m2; d1; d2]
         && (h1 =? 45)%N && (h2 =? 45)%N
      then
        let y := 1000 * digit_value y1 + 100 * digit_value y2
                 + 10 * digit_value y3 + digit_value y4 in
        let m := 10 * digit_value m1 + digit_value m2 in
        let d := 10 * digit_value d1 + digit_value d2 in
        new_Date zone y (if m - 1 =? 0 then 0 else m - 1) d
      else None
  | _ => None
  end.

End Dayjs.

(** ** zod: the schemas the shape is built from *)

Module Zod.

Record Issue := { path : list jsstring; message : jsstring }.

Inductive Parsed (A : Type) : Type :=
| Valid (a : A)
| Invalid (issues : list Issue).
Arguments Valid {A} a.
Arguments Invalid {A} issues.

Definition Schema (A : Type) := Value -> Parsed A.

Definition issue (msg : string) : Issue :=
  {| path := []; message := JS.str msg |}.

Definition string : Schema jsstring := fun v =>
  match v with
  | VString s => Valid s
  | VUndefined => Invalid [issue "Required"]
  | _ => Invalid [issue "Expected string"]
  end.

Definition number : Schema Z := fun v =>
  match v with
  | VNumber n => Valid n
  | VUndefined => Invalid [issue "Required"]
  | _ => Invalid [issue "Expected number"]
  end.

(** [z.literal(true)] *)
Definition literal_true : Schema unit := fun v =>
  match v with
  | VBool true => Valid tt
  | _ => Invalid [issue "Invalid literal value"]
  end.

(** A union of string literals (its [z.never()] members accept nothing). *)
Definition literals (ls : list jsstring) : Schema jsstring := fun v =>
  match v with
  | VString s =>
      if existsb (JS.eqb s) ls then Valid s
      else Invalid [issue "Invalid input"]
  | _ => Invalid [issue "Invalid input"]
  end.

Definition optional {A} (s : Schema A) : Schema (option A) := fun v =>
  match v with
  | VUndefined => Valid None
  | _ => match s v with
         | Valid a => Valid (Some a)
         | Invalid errs => Invalid errs
         end
  end.

(** Modelled from the spec: [validate] of ./validate is absent from the
    sources; it is non-throwing and reports every failure as a field
    error, so a transform that throws yields an issue of its field. *)
Definition transform {A B} (s : Schema A) (f : A -> Exc B) : Schema B :=
  fun v =>
    match s v with
    | Valid a => match f a with
                 | Ok b => Valid b
                 | Throw e => Invalid [{| path := []; message := e |}]
                 end
    | Invalid errs => Invalid errs
    end.

Definition under (key : jsstring) (i : Issue) : Issue :=
  {| path := key :: path i; message := message i |}.

(** The property [key] of an object, parsed by [s]. *)
Definition field {A} (key : String.string) (s : Schema A) (o : Obj) : Parsed A :=
  match s (JS.get o (JS.str key)) with
  | Valid a => Valid a
  | Invalid errs => Invalid (map (under (JS.str key)) errs)
  end.

(** The fields of an object are parsed one after the other and their
    issues are gathered. *)
Definition ap {A B} (f : Parsed (A -> B)) (a : Parsed A) : Parsed B :=
  match f, a with
  | Valid g, Valid x => Valid (g x)
  | Valid _, Invalid errs => Invalid errs
  | Invalid errs, Valid _ => Invalid errs
  | Invalid errs, Invalid errs' => Invalid (errs ++ errs')
  end.

Definition object {A} (fields : Obj -> Parsed A) : Schema A := fun v =>
  match v with
  | VObject o => fields o
  | VUndefined => Invalid [issue "Required"]
  | _ => Invalid [issue "Expected object"]
  end.

End Zod.

Declare Scope zod_scope.
Delimit Scope zod_scope with zod.
Notation "f <*> a" := (Zod.ap f a) (at level 61, left associativity)
  : zod_scope.

(** ** ical.js: what the pipeline sees of a calendar component *)

Module ICAL.

(** A property: its name, and what [getValues()] returns or throws. *)
Record Property := { name : jsstring; getValues : Exc (list Value) }.

(** A component (a VEVENT), seen through [getAllProperties()]. *)
Record Component := { getAllProperties : list Property }.

End ICAL.

(** ** index.ts: the shape *)

Definition cabinMap : list (jsstring * nullable jsstring) :=
  [ (JS.str "Foster", Val (JS.str "45617389-7678-42bf-bfb4-83304a389dc7"));
    (JS.str "House", Val (JS.str "430a512f-6a35-4ed0-9e4b-4efa7a90a0e7"));
    (JS.str "Ide", Val (JS.str "d0b162c0-8a64-4946-b148-a7362c296709"));
    (JS.str "Kendrew", Val (JS.str "2bb998a2-7c9a-4367-bcdb-b8e8a144b8a7"));
    (JS.str "Meeting", Null);
    (JS.str "Mosher", Val (JS.str "649d65b6-9a50-491f-b0f2-8a0e22ee6275")) ].

(** [cabinMap[key]] *)
Fixpoint cabinMap_get (m : list (jsstring * nullable jsstring))
    (key : jsstring) : nullable jsstring :=
  match m with
  | [] => Undefined
  | (k, v) :: rest => if JS.eqb k key then v else cabinMap_get rest key
  end.

(** [Object.keys(cabinMap)] *)
Definition cabins : list jsstring := map fst cabinMap.

Definition cabinShape : Zod.Schema jsstring := Zod.literals cabins.

(** What [dateShape] infers; its [isDate] is the literal [true]. *)
Record DateObj := { year : Z; month : Z; day : Z }.

Definition dateShape : Zod.Schema DateObj :=
  Zod.object (fun o =>
    (Zod.Valid (fun (_ : unit) y m d => {| year := y; month := m; day := d |})
       <*> Zod.field "isDate" Zod.literal_true o
       <*> Zod.field "year" Zod.number o
       <*> Zod.field "month" Zod.number o
       <*> Zod.field "day" Zod.number o)%zod).

(** The recurrence the shape accepts; its [freq] is the literal 'DAILY'. *)
Record Rrule := { until : DateObj }.

Definition rruleShape : Zod.Schema Rrule :=
  Zod.object (fun o =>
    (Zod.Valid (fun (_ : jsstring) u => {| until := u |})
       <*> Zod.field "freq" (Zod.literals [JS.str "DAILY"]) o
       <*> Zod.field "until" dateShape o)%zod).

(** What [shape] infers. *)
Record Data := {
  uid : jsstring;
  summary : option jsstring;
  dtstart : DateObj;
  dtend : option DateObj;
  categories : option jsstring;
  description : option jsstring;
  rrule : option Rrule
}.

Definition shape : Zod.Schema Data :=
  Zod.object (fun o =>
    (Zod.Valid Build_Data
       <*> Zod.field "uid" (Zod.transform Zod.string extractCalciumId) o
       <*> Zod.field "summary"
             (Zod.transform Zod.string (fun s => Ok (fixApostrophe (Some s)))) o
       <*> Zod.field "dtstart" dateShape o
       <*> Zod.field "dtend" (Zod.optional dateShape) o
       <*> Zod.field "categories" (Zod.optional cabinShape) o
       <*> Zod.field "description"
             (Zod.transform (Zod.optional Zod.string)
                (fun s => Ok (fixApostrophe s))) o
       <*> Zod.field "rrule" (Zod.optional rruleShape) o)%zod).

(** What [validate] returns. *)
Record Validated (A : Type) := {
  data : option A;
  error : option (list Zod.Issue)
}.
Arguments data {A} v.
Arguments error {A} v.

(** Modelled from the spec: [validate] of ./validate is absent from the
    sources.  It parses the flat record by the shape and returns either the
    normalized record or one error that holds every field error; it never
    throws. *)
Definition validate {A} (obj : Obj) (shape : Zod.Schema A) : Validated A :=
  match shape (VObject obj) with
  | Zod.Valid d => {| data := Some d; error := None |}
  | Zod.Invalid errs => {| data := None; error := Some errs |}
  end.

(** ** index.ts: dates *)

Definition parseDate (env : Dayjs.Env) (obj : DateObj) : Dayjs.t :=
  Dayjs.of_object env (year obj) (month obj - 1) (day obj).

Definition formatDate (obj : Dayjs.t) : jsstring :=
  Dayjs.format_YYYY_MM_DD obj.

(** ** index.ts: ImportICS *)

Record Dates := { start : jsstring; end_ : jsstring }.

(** An element of [parsed]. *)
Record Event := {
  importId : jsstring;
  title : option jsstring;
  event_description : option jsstring;
  cabin : nullable jsstring;
  dates : Dates
}.

(** An entry of [broken] or of [unparsed]. *)
Record Diag (O E : Type) := {
  number : nat;
  object : O;
  diag_error : E
}.
Arguments number {O E} d.
Arguments object {O E} d.
Arguments diag_error {O E} d.

Definition Broken := Diag (list ICAL.Property) jsstring.
Definition Unparsed := Diag Obj (option (list Zod.Issue)).

(** The two arrays the callback of [events.map] pushes to. *)
Record Buckets := { broken : list Broken; unparsed : list Unparsed }.

(** The callback runs in a state of the buckets and may throw; what it
    pushed before a throw stays pushed. *)
Definition M (A : Type) : Type := Buckets -> Exc A * Buckets.

Definition ret {A} (a : A) : M A := fun s => (Ok a, s).

Definition bind {A B} (m : M A) (f : A -> M B) : M B := fun s =>
  match m s with
  | (Ok a, s') => f a s'
  | (Throw e, s') => (Throw e, s')
  end.

Definition lift {A} (x : Exc A) : M A := fun s => (x, s).

Definition try_catch {A} (body : M A) (handler : jsstring -> M A) : M A :=
  fun s =>
    match body s with
    | (Ok a, s') => (Ok a, s')
    | (Throw e, s') => handler e s'
    end.

Definition push_broken (d : Broken) : M unit := fun s =>
  (Ok tt, {| broken := broken s ++ [d]; unparsed := unparsed s |}).

Definition push_unparsed (d : Unparsed) : M unit := fun s =>
  (Ok tt, {| broken := broken s; unparsed := unparsed s ++ [d] |}).

Notation "x <- m ;; f" := (bind m (fun x => f))
  (at level 100, m at next level, right associativity).
Notation "m ;;; f" := (bind m (fun _ => f))
  (at level 100, right associativity).

(** The loop over the properties (lines 373 to 376). *)
Fixpoint collect (props : list ICAL.Property) (obj : Obj) : Exc Obj :=
  match props with
  | [] => Ok obj
  | prop :: rest =>
      if JS.eqb (ICAL.name prop) (JS.str "exdate") then collect rest obj
      else
        match ICAL.getValues prop with
        | Throw e => Throw e
        | Ok vs => collect rest (JS.set obj (ICAL.name prop) (JS.first vs))
        end
  end.

(** The two boundaries, swapped when they are in the wrong order (lines 396
    to 402). *)
Definition ordered_dates (env : Dayjs.Env) (data : Data)
    : Dayjs.t * Dayjs.t :=
  let dates :=
    (parseDate env (dtstart data),
     parseDate env (match rrule data with
                    | Some r => until r
                    | None => dtstart data
                    end)) in
  if Dayjs.isBefore (snd dates) (fst dates)
  then (snd dates, fst dates)
  else dates.

(** [dateCutoff?.length && end.isAfter(dateCutoff)] (line 405) *)
Definition past_cutoff (env : Dayjs.Env) (dateCutoff : option jsstring)
    (end_date : Dayjs.t) : bool :=
  match dateCutoff with
  | None => false
  | Some s =>
      if (List.length s =? 0)%nat then false
      else Dayjs.isAfter end_date (Dayjs.of_string env s)
  end.

(** [(data.categories && cabinMap[data.categories]) ?? null] (line 411) *)
Definition cabin_of (categories : option jsstring) : nullable jsstring :=
  nullish
    (match categories with
     | None => Undefined
     | Some c => if JS.truthy c then cabinMap_get cabinMap c else Val c
     end)
    Null.

(** The object [event] (lines 407 to 416). *)
Definition make_event (data : Data) (dates : Dayjs.t * Dayjs.t) : Event :=
  {| importId := uid data;
     title := summary data;
     event_description := description data;
     cabin := cabin_of (categories data);
     dates := {| start := formatDate (fst dates);
                 end_ := formatDate (snd dates) |} |}.

(** The callback of [events.map] (lines 370 to 419); [None] is its
    [undefined]. *)
Definition callback (env : Dayjs.Env) (dateCutoff : option jsstring)
    (c : ICAL.Component) (i : nat) : M (option Event) :=
  extracted <-
    try_catch
      (obj <- lift (collect (ICAL.getAllProperties c) []) ;; ret (Some obj))
      (fun e =>
         push_broken {| number := i;
                        object := ICAL.getAllProperties c;
                        diag_error := e |} ;;;
         ret None) ;;
  match extracted with
  | None => ret None
  | Some obj =>
      let v := validate obj shape in
      match error v, data v with
      | None, Some data =>
          let dates := ordered_dates env data in
          if past_cutoff env dateCutoff (snd dates) then ret None
          else ret (Some (make_event data dates))
      | _, _ =>
          push_unparsed {| number := i;
                           object := obj;
                           diag_error := error v |} ;;;
          ret None
      end
  end.

(** [events.map(callback)] from index [i] on. *)
Fixpoint map_callback (env : Dayjs.Env) (dateCutoff : option jsstring)
    (events : list ICAL.Component) (i : nat) : M (list (option Event)) :=
  match events with
  | [] => ret []
  | c :: rest =>
      r <- callback env dateCutoff c i ;;
      rs <- map_callback env dateCutoff rest (S i) ;;
      ret (r :: rs)
  end.

(** [.filter((it) => !!it)] *)
Fixpoint filter_defined {A} (l : list (option A)) : list A :=
  match l with
  | [] => []
  | Some a :: rest => a :: filter_defined rest
  | None :: rest => filter_defined rest
  end.

(** What a run computes: the returned [parsed], the two buckets and [rr],
    the parsed events without an end date. *)
Record Result := {
  parsed : list Event;
  buckets : Buckets;
  rr : list Event
}.

(** [ImportICS], from the list of the VEVENT components on. *)
Definition ImportICS (env : Dayjs.Env) (events : list ICAL.Component)
    (dateCutoff : option jsstring) : Exc Result :=
  match map_callback env dateCutoff events 0
          {| broken := []; unparsed := [] |} with
  | (Throw e, _) => Throw e
  | (Ok mapped, b) =>
      let parsed := filter_defined mapped in
      Ok {| parsed := parsed;
            buckets := b;
            rr := filter (fun c => negb (JS.truthy (end_ (dates c)))) parsed |}
  end.

(** ** What becomes of one component

    The four ways the callback can end, read off its branches; the lemmas
    below show that the callback and the whole run follow them. *)

Inductive Outcome : Type :=
| IsBroken (e : jsstring)
| IsUnparsed (obj : Obj) (err : option (list Zod.Issue))
| IsDropped
| IsAccepted (ev : Event).

Definition outcome (env : Dayjs.Env) (dateCutoff : option jsstring)
    (c : ICAL.Component) : Outcome :=
  match collect (ICAL.getAllProperties c) [] with
  | Throw e => IsBroken e
  | Ok obj =>
      let v := validate obj shape in
      match error v, data v with
      | None, Some data =>
          if past_cutoff env dateCutoff (snd (ordered_dates env data))
          then IsDropped
          else IsAccepted (make_event data (ordered_dates env data))
      | _, _ => IsUnparsed obj (error v)
      end
  end.

Definition returned (o : Outcome) : option Event :=
  match o with
  | IsAccepted ev => Some ev
  | _ => None
  end.

Definition pushed (o : Outcome) (c : ICAL.Component) (i : nat)
    (s : Buckets) : Buckets :=
  match o with
  | IsBroken e =>
      {| broken := broken s ++ [{| number := i;
                                   object := ICAL.getAllProperties c;
                                   diag_error := e |}];
         unparsed := unparsed s |}
  | IsUnparsed obj err =>
      {| broken := broken s;
         unparsed := unparsed s ++ [{| number := i;
                                       object := obj;
                                       diag_error := err |}] |}
  | IsDropped | IsAccepted _ => s
  end.

Fixpoint pushed_all (env : Dayjs.Env) (dateCutoff : option jsstring)
    (events : list ICAL.Component) (i : nat) (s : Buckets) : Buckets :=
  match events with
  | [] => s
  | c :: rest =>
      pushed_all env dateCutoff rest (S i)
        (pushed (outcome env dateCutoff c) c i s)
  end.

(** The events a run returns: the accepted outcomes, in source order. *)
Definition accepted (env : Dayjs.Env) (dateCutoff : option jsstring)
    (events : list ICAL.Component) : list Event :=
  filter_defined (map (fun c => returned (outcome env dateCutoff c)) events).

(** The instant [a] is later than the instant [b]. *)
Definition strictly_after (a b : Dayjs.t) : Prop :=
  exists ta tb, a = Some ta /\ b = Some tb /\ tb < ta.

(** The date [a] is on or before the date [b], as triples of a year, a
    month and a day. *)
Definition calendar_le (a b : Z * Z * Z) : Prop :=
  let '(y1, m1, d1) := a in
  let '(y2, m2, d2) := b in
  y1 < y2 \/ (y1 = y2 /\ (m1 < m2 \/ (m1 = m2 /\ d1 <= d2))).

(** The year, month and day that [formatDate] prints for a time value. *)
Definition printed_date (ms : Z) : Z * Z * Z :=
  Dayjs.civil_from_days (ms / Dayjs.msPerDay).

(** The later boundary of a recurring event, of a single day otherwise. *)
Definition range_end (data : Data) : DateObj :=
  match rrule data with
  | Some r => until r
  | None => dtstart data
  end.

(** The flat record [obj] passed validation and gave [d]. *)
Definition validated (c : ICAL.Component) (obj : Obj) (d : Data) : Prop :=
  collect (ICAL.getAllProperties c) [] = Ok obj /\
  validate obj shape = {| data := Some d; error := None |}.

(** The diagnostic [d] of a run, as numbered in a run over the list with
    one more component at index [k]. *)
Definition renumbered {O E} (k : nat) (d : Diag O E) : Diag O E :=
  {| number := if (number d <? k)%nat then number d else S (number d);
     object := object d;
     diag_error := diag_error d |}.

(** ** The uid pattern as the specification words it

    <10-digit-prefix>-<token>-<6-digit-suffix>@<fixed-domain>: the pattern of
    the source with the dot of the domain taken literally. *)
Definition uid_pattern : regex :=
  Seq (Repeat 10 Digit)
    (Seq (Lit 45%N)
      (Seq (Group (Plus Word))
        (Seq (Lit 45%N)
          (Seq (Repeat 6 Digit)
            (lits (JS.str "@afosterri.or") (Lit 103%N)))))).

(** The two patterns differ in what stands between afosterri and org; this
    is the pattern with [d] there. *)
Definition uid_with (d : regex) : regex :=
  Seq (Repeat 10 Digit)
    (Seq (Lit 45%N)
      (Seq (Group (Plus Word))
        (Seq (Lit 45%N)
          (Seq (Repeat 6 Digit)
            (lits (JS.str "@afosterri")
              (Seq d (lits (JS.str "or") (Lit 103%N)))))))).

(** [id] is ten digits, a hyphen, the token [t] of one or more word
    characters, a hyphen, six digits, then @afosterri, a character that [ok]
    accepts, and org. *)
Definition uid_shape (ok : codeunit -> bool) (id t : jsstring) : Prop :=
  exists p q c,
    id = p ++ [45%N] ++ t ++ [45%N] ++ q
           ++ JS.str "@afosterri" ++ [c] ++ JS.str "org" /\
    List.length p = 10%nat /\ forallb is_digit p = true /\
    t <> [] /\ forallb is_word t = true /\
    List.length q = 6%nat /\ forallb is_digit q = true /\
    ok c = true.

(** What the dot of the source accepts, and what a literal dot accepts. *)
Definition any_character (c : codeunit) : bool := negb (is_line_terminator c).
Definition full_stop (c : codeunit) : bool := (46 =? c)%N.

(** ** Sample inputs *)

Module Sample.

Definition env : Dayjs.Env :=
  {| Dayjs.now := {| Dayjs.now_year := 2024;
                     Dayjs.now_month := 11;
                     Dayjs.now_date := 31 |};
     Dayjs.of_string := Dayjs.of_iso_date (-300);
     Dayjs.zone := -300;
     Dayjs.zone_in_range := eq_refl |}.

(** An [ICAL.Time] that is a date. *)
Definition date (y m d : Z) : Value :=
  VObject [ (JS.str "isDate", VBool true);
            (JS.str "year", VNumber y);
            (JS.str "month", VNumber m);
            (JS.str "day", VNumber d) ].

(** An [ICAL.Recur]. *)
Definition recur (freq : String.string) (u : Value) : Value :=
  VObject [ (JS.str "freq", VString (JS.str freq)); (JS.str "until", u) ].

Definition prop (n : String.string) (v : Value) : ICAL.Property :=
  {| ICAL.name := JS.str n; ICAL.getValues := Ok [v] |}.

Definition raising (n : String.string) : ICAL.Property :=
  {| ICAL.name := JS.str n;
     ICAL.getValues := Throw (JS.str "invalid value") |}.

Definition vevent (id title : String.string) (y m d : Z)
    (more : list ICAL.Property) : ICAL.Component :=
  {| ICAL.getAllProperties :=
       [ prop "uid" (VString (JS.str id));
         prop "summary" (VString (JS.str title));
         prop "dtstart" (date y m d) ] ++ more |}.

Definition team_meeting : ICAL.Component :=
  vevent "1234567890-abc123-999999@afosterri.org" "Team Meeting"
    2024 1 15 [].

Definition reversed : ICAL.Component :=
  vevent "1234567890-rev001-999999@afosterri.org" "Work Weekend"
    2024 1 15 [prop "rrule" (recur "DAILY" (date 2024 1 10))].

Definition late : ICAL.Component :=
  vevent "1234567890-late01-999999@afosterri.org" "New Year"
    2025 1 1 [].

Definition other_domain : ICAL.Component :=
  vevent "1234567890-abc123-999999@afosterriXorg" "Team Meeting"
    2024 1 15 [].

Definition no_digits : ICAL.Component :=
  vevent "abc123@afosterri.org" "Team Meeting" 2024 1 15 [].

Definition malformed : ICAL.Component :=
  {| ICAL.getAllProperties :=
       [ prop "uid" (VString (JS.str "1234567890-bad001-999999@afosterri.org"));
         raising "dtstart" ] |}.

(** The record the specification expects of [team_meeting]: its location
    is [undefined]. *)
Definition expected_team_meeting : Event :=
  {| importId := JS.str "abc123";
     title := Some (JS.str "Team Meeting");
     event_description := None;
     cabin := Undefined;
     dates := {| start := JS.str "2024-01-15";
                 end_ := JS.str "2024-01-15" |} |}.

(** The same host a year later. *)
Definition a_year_later : Dayjs.Env :=
  {| Dayjs.now := {| Dayjs.now_year := 2025;
                     Dayjs.now_month := 11;
                     Dayjs.now_date := 31 |};
     Dayjs.of_string := Dayjs.of_iso_date (-300);
     Dayjs.zone := -300;
     Dayjs.zone_in_range := eq_refl |}.

(** A host whose local time is UTC. *)
Definition greenwich : Dayjs.Env :=
  {| Dayjs.now := {| Dayjs.now_year := 2024;
                     Dayjs.now_month := 11;
                     Dayjs.now_date := 31 |};
     Dayjs.of_string := Dayjs.of_iso_date 0;
     Dayjs.zone := 0;
     Dayjs.zone_in_range := eq_refl |}.

(** An event whose start has the year 0. *)
Definition yearless : ICAL.Component :=
  vevent "1234567890-nyr001-999999@afosterri.org" "Birthday" 0 3 14 [].

(** An event that starts on the day after the last day of [Date] and
    recurs until a day of 2024. *)
Definition beyond_Date : ICAL.Component :=
  vevent "1234567890-far001-999999@afosterri.org" "Far away"
    275760 9 14 [prop "rrule" (recur "DAILY" (date 2024 1 15))].

End Sample.

(** ** index.ts: the rest of the file *)

(** [parseFormatDate(obj)] *)
Definition parseFormatDate (env : Dayjs.Env) (obj : DateObj) : jsstring :=
  formatDate (parseDate env obj).

(** *** dayjs: seconds, and the utc plugin

    The time value of a local [Dayjs.t] is in local milliseconds; the
    instant it stands for is that many milliseconds less the offset of local
    time from UTC, which is given in minutes. *)

Module Utc.

(** A [Dayjs] in UTC mode: its time value is in UTC milliseconds. *)
Definition t := option Z.

(** A number that may be NaN. *)
Definition number := option Z.

Definition msPerMinute : Z := 60000.

(** [d.valueOf()] of a local [Dayjs]. *)
Definition valueOf (offset : Z) (d : Dayjs.t) : number :=
  option_map (fun ms => ms - offset * msPerMinute) d.

(** [d.unix()]: [Math.floor(d.valueOf() / 1000)]. *)
Definition unix (offset : Z) (d : Dayjs.t) : number :=
  option_map (fun ms => ms / 1000) (valueOf offset d).

(** [dayjs(date)] for a [Date], whose time value is in UTC milliseconds. *)
Definition of_Date (offset : Z) (date : number) : Dayjs.t :=
  option_map (fun ms => ms + offset * msPerMinute) date.

(** [dayjs.unix(s)]: [dayjs(s * 1000)]. *)
Definition of_unix (offset : Z) (s : number) : Dayjs.t :=
  of_Date offset (option_map (fun s => s * 1000) s).

(** [d.utcOffset()] of a local [Dayjs]: the offset rounded to a quarter of
    an hour, [-Math.round(getTimezoneOffset() / 15) * 15]. *)
Definition utcOffset (offset : Z) : Z :=
  - ((2 * (- offset) + 15) / 30 * 15).

(** [d.utc(keepLocalTime)]: the same instant in UTC mode, moved by the
    offset when the local time is to be kept. *)
Definition utc (offset : Z) (keepLocalTime : bool) (d : Dayjs.t) : t :=
  option_map
    (fun instant =>
       if keepLocalTime then instant + utcOffset offset * msPerMinute
       else instant)
    (valueOf offset d).

(** [u.startOf('date')] in UTC mode. *)
Definition startOf_date (u : t) : t :=
  option_map (fun ms => ms / Dayjs.msPerDay * Dayjs.msPerDay) u.

(** [u.unix()] in UTC mode. *)
Definition unix_utc (u : t) : number :=
  option_map (fun ms => ms / 1000) u.

End Utc.

(** *** uploadData: what is sent *)

Module Upload.

(** [dateTS(d, isInputNotUTC)]; [d] is a [Date] or a number of seconds. *)
Definition dateTS (offset : Z) (d : Utc.number + Utc.number)
    (isInputNotUTC : bool) : Utc.number :=
  let day := match d with
             | inl date => Utc.of_Date offset date
             | inr seconds => Utc.of_unix offset seconds
             end in
  Utc.unix_utc (Utc.startOf_date (Utc.utc offset isInputNotUTC day)).

(** [stringToTS(d)]: the format that [dayjs(d, 'YYYY-MM-DD')] is given is
    read by a plugin that the file does not load. *)
Definition stringToTS (env : Dayjs.Env) (offset : Z) (d : jsstring)
    : Utc.number :=
  dateTS offset (inr (Utc.unix offset (Dayjs.of_string env d))) true.

Record Reservation := {
  name : option jsstring;
  roomId : option jsstring;
  customText : option jsstring
}.

(** An element of [finalEvents]. *)
Record Stay := {
  title : option jsstring;
  description : jsstring;
  authorId : jsstring;
  dateStart : Utc.number;
  dateEnd : Utc.number;
  reservations : list Reservation;
  importId : jsstring
}.

(** [event.cabin ?? undefined] *)
Definition room_of (cabin : nullable jsstring) : option jsstring :=
  match cabin with
  | Val id => Some id
  | Null | Undefined => None
  end.

(** [!event.cabin?.length ? 'Custom Event' : undefined] *)
Definition custom_text_of (cabin : nullable jsstring) : option jsstring :=
  match cabin with
  | Val id =>
      if (List.length id =? 0)%nat then Some (JS.str "Custom Event")
      else None
  | Null | Undefined => Some (JS.str "Custom Event")
  end.

(** The callback of [parsed.map] (lines 454 to 468). *)
Definition finalEvent (env : Dayjs.Env) (offset : Z) (event : Event)
    : Stay :=
  let '(Build_Event event_importId event_title event_description event_cabin
          event_dates) := event in
  {| title := event_title;
     description := match event_description with
                    | Some s => s
                    | None => []
                    end;
     authorId := JS.str "3ede5331-ab2d-46b6-89b4-dd68d0d4e2a0";
     dateStart := stringToTS env offset (start event_dates);
     dateEnd := stringToTS env offset (end_ event_dates);
     reservations :=
       [ {| name := event_title;
            roomId := room_of event_cabin;
            customText := custom_text_of event_cabin |} ];
     importId := event_importId |}.

(** [uploadData], up to the request: [None] when [ImportICS] returns
    nothing. *)
Definition finalEvents (env : Dayjs.Env) (offset : Z)
    (parsed : option (list Event)) : option (list Stay) :=
  option_map (map (finalEvent env offset)) parsed.

End Upload.

(** ** index.ts as it was: the uid without a check *)

Module Previous.

(** [/^1754931775-(\w+)-515570@afosterri.org$/] *)
Definition uid_re : regex :=
  lits (JS.str "1754931775-")
    (Seq (Group (Plus Word))
      (lits (JS.str "-515570@afosterri")
        (Seq Dot (lits (JS.str "or") (Lit 103%N))))).

(** [extractCalciumId(id)] (lines 62 to 64) *)
Definition extractCalciumId (id : jsstring) : jsstring :=
  replace_anchored_by_group1 uid_re id.

End Previous.

(** ** What the properties below speak of *)

(** The components a run drops for the cutoff. *)
Definition dropped (env : Dayjs.Env) (dateCutoff : option jsstring)
    (events : list ICAL.Component) : list ICAL.Component :=
  filter (fun c => match outcome env dateCutoff c with
                   | IsDropped => true
                   | _ => false
                   end) events.

(** [l1] is [l2] with some elements left out. *)
Inductive Subsequence {A : Type} : list A -> list A -> Prop :=
| Subsequence_nil : Subsequence [] []
| Subsequence_skip x l1 l2 : Subsequence l1 l2 -> Subsequence l1 (x :: l2)
| Subsequence_keep x l1 l2 :
    Subsequence l1 l2 -> Subsequence (x :: l1) (x :: l2).



(** The year that [new Date] takes for the year [y] it is given. *)
Definition Date_year (y : Z) : Z :=
  if (0 <=? y) && (y <=? 99) then 1900 + y else y.

(** A date of the common run: its year is not 0 and is a year that [Date]
    holds whole, its month is from 1 to 12 and its day from 1 to 31. *)
Definition ordinary_date (obj : DateObj) : bool :=
  negb (year obj =? 0)
  && (-271820 <=? year obj) && (year obj <=? 275759)
  && (1 <=? month obj) && (month obj <=? 12)
  && (1 <=? day obj) && (day obj <=? 31).

(** The names of a list of properties that [collect] reads. *)
Definition is_exdate (p : ICAL.Property) : bool :=
  JS.eqb (ICAL.name p) (JS.str "exdate").

(** [p] can be read: it is skipped, or its values are returned. *)
Definition readable (p : ICAL.Property) : Prop :=
  is_exdate p = true \/ exists vs, ICAL.getValues p = Ok vs.

(** No property of [ps] that [collect] reads is named [n]. *)
Definition not_written (n : jsstring) (ps : list ICAL.Property) : Prop :=
  Forall (fun q => is_exdate q = true \/ JS.eqb (ICAL.name q) n = false) ps.

(** The keys that the shape reads in the flat record. *)
Definition shape_keys : list jsstring :=
  map JS.str
    ["uid"; "summary"; "dtstart"; "dtend"; "categories"; "description";
     "rrule"]%string.

(** The decimal digit [r], written before the digits [u]. *)
Definition decimal_digit (r : Z) (u : Decimal.uint) : Decimal.uint :=
  match r with
  | 0 => Decimal.D0 u | 1 => Decimal.D1 u | 2 => Decimal.D2 u
  | 3 => Decimal.D3 u | 4 => Decimal.D4 u | 5 => Decimal.D5 u
  | 6 => Decimal.D6 u | 7 => Decimal.D7 u | 8 => Decimal.D8 u
  | _ => Decimal.D9 u
  end.

(** The character of the decimal digit [r]. *)
Definition digit (r : Z) : codeunit := Z.to_N (48 + r).

(** [a <= b] on strings: the order of the code units, a prefix first. *)
Fixpoint string_leb (a b : jsstring) : bool :=
  match a, b with
  | [], _ => true
  | _ :: _, [] => false
  | x :: a', y :: b' =>
      if (x <? y)%N then true
      else if (x =? y)%N then string_leb a' b' else false
  end.

(** The year that [formatDate] prints for a time value. *)
Definition printed_year (ms : Z) : Z := fst (fst (printed_date ms)).

(** [dayjs(s)] goes by the library's pattern where it applies, as the
    library does before it turns to the engine's parser. *)
Definition reads_iso_dates (env : Dayjs.Env) : Prop :=
  forall s t,
    Dayjs.of_iso_date (Dayjs.zone env) s = Some t ->
    Dayjs.of_string env s = Some t.

(** * Properties *)

(** ** Strings *)

Lemma eqb_refl (a : jsstring) : JS.eqb a a = true.
Proof.
  induction a as [|x a IH]; simpl; [reflexivity|].
  now rewrite N.eqb_refl, IH.
Qed.

Lemma eqb_eq (a b : jsstring) : JS.eqb a b = true <-> a = b.
Proof.
  split.
  - revert b; induction a as [|x a IH]; intros [|y b]; simpl;
      try discriminate; [reflexivity|].
    intros H. apply andb_true_iff in H as [Hx Hab].
    apply N.eqb_eq in Hx. now rewrite Hx, (IH b Hab).
  - intros ->. apply eqb_refl.
Qed.

Lemma truthy_nonempty (s : jsstring) : JS.truthy s = true <-> s <> [].
Proof.
  destruct s; simpl; split; intros H; try reflexivity; try discriminate.
  now elim H.
Qed.

(** ** The callback and the run follow the outcomes *)

Lemma callback_outcome env dateCutoff c i s :
  callback env dateCutoff c i s
  = (Ok (returned (outcome env dateCutoff c)),
     pushed (outcome env dateCutoff c) c i s).
Proof.
  unfold callback, outcome, bind, try_catch, lift, ret.
  destruct (collect (ICAL.getAllProperties c) []) as [obj|e]; simpl.
  - destruct (validate obj shape) as [[d|] [errs|]]; simpl;
      try (destruct s; reflexivity).
    destruct (past_cutoff env dateCutoff (snd (ordered_dates env d)));
      reflexivity.
  - reflexivity.
Qed.

Lemma map_callback_outcome env dateCutoff events : forall i s,
  map_callback env dateCutoff events i s
  = (Ok (map (fun c => returned (outcome env dateCutoff c)) events),
     pushed_all env dateCutoff events i s).
Proof.
  induction events as [|c rest IH]; intros i s; simpl.
  - reflexivity.
  - unfold bind at 1. rewrite callback_outcome.
    unfold bind at 1. rewrite IH. reflexivity.
Qed.

Lemma ImportICS_outcome env events dateCutoff :
  ImportICS env events dateCutoff
  = Ok {| parsed := accepted env dateCutoff events;
          buckets := pushed_all env dateCutoff events 0
                       {| broken := []; unparsed := [] |};
          rr := filter (fun c => negb (JS.truthy (end_ (dates c))))
                  (accepted env dateCutoff events) |}.
Proof.
  unfold ImportICS. rewrite map_callback_outcome. reflexivity.
Qed.

Lemma filter_defined_app {A} (l1 l2 : list (option A)) :
  filter_defined (l1 ++ l2) = filter_defined l1 ++ filter_defined l2.
Proof.
  induction l1 as [|[a|] l1 IH]; simpl; [reflexivity| |assumption].
  now rewrite IH.
Qed.

Lemma accepted_app env dateCutoff l1 l2 :
  accepted env dateCutoff (l1 ++ l2)
  = accepted env dateCutoff l1 ++ accepted env dateCutoff l2.
Proof.
  unfold accepted. now rewrite map_app, filter_defined_app.
Qed.

(** The accepted records keep the order of the components: a run over two
    lists in a row returns the records of the first, then those of the
    second. *)
Lemma parsed_in_source_order env dateCutoff l1 l2 :
  exists r r1 r2,
    ImportICS env (l1 ++ l2) dateCutoff = Ok r /\
    ImportICS env l1 dateCutoff = Ok r1 /\
    ImportICS env l2 dateCutoff = Ok r2 /\
    parsed r = parsed r1 ++ parsed r2.
Proof.
  rewrite !ImportICS_outcome. do 3 eexists.
  repeat (split; [reflexivity|]). cbn [parsed]. apply accepted_app.
Qed.

Lemma accepted_skip env dateCutoff l1 c l2 :
  returned (outcome env dateCutoff c) = None ->
  accepted env dateCutoff (l1 ++ c :: l2) = accepted env dateCutoff (l1 ++ l2).
Proof.
  intros H. rewrite !accepted_app. f_equal.
  unfold accepted. simpl. now rewrite H.
Qed.

Lemma In_accepted env dateCutoff events ev :
  In ev (accepted env dateCutoff events) <->
  exists c, In c events /\ outcome env dateCutoff c = IsAccepted ev.
Proof.
  unfold accepted. induction events as [|c rest IH]; simpl.
  - split; [contradiction|]. now intros (c & [] & _).
  - destruct (outcome env dateCutoff c) eqn:E; simpl.
    1-3: rewrite IH; split;
      [ intros (c' & Hin & Hc'); exists c'; auto
      | intros (c' & [<-|Hin] & Hc'); [congruence | exists c'; auto] ].
    split.
    + intros [<-|Hin]; [exists c; auto|].
      apply IH in Hin as (c' & Hin & Hc'). exists c'; auto.
    + intros (c' & [<-|Hin] & Hc').
      * left; congruence.
      * right; apply IH. exists c'; auto.
Qed.

(** What the buckets hold after a run over [events], numbered from [i]. *)
Lemma In_broken_pushed_all env dateCutoff events : forall i s d,
  In d (broken (pushed_all env dateCutoff events i s)) <->
  In d (broken s) \/
  exists j c e,
    nth_error events j = Some c /\
    outcome env dateCutoff c = IsBroken e /\
    d = {| number := (i + j)%nat;
           object := ICAL.getAllProperties c;
           diag_error := e |}.
Proof.
  induction events as [|c rest IH]; intros i s d; simpl.
  - split; [auto|]. intros [H|(j & c & e & H & _)]; [assumption|].
    now destruct j.
  - rewrite IH. split.
    + intros [H|(j & c' & e & Hn & Ho & ->)].
      * destruct (outcome env dateCutoff c) eqn:E; simpl in H; auto.
        apply in_app_or in H as [H|[<-|[]]]; auto.
        right. exists 0%nat, c, e. rewrite Nat.add_0_r. auto.
      * right. exists (S j), c', e. simpl.
        now rewrite Nat.add_succ_r.
    + intros [H|(j & c' & e & Hn & Ho & ->)].
      * left. destruct (outcome env dateCutoff c); simpl; auto.
        apply in_or_app; auto.
      * destruct j as [|j]; simpl in Hn.
        -- injection Hn as ->. rewrite Ho. simpl. left.
           apply in_or_app. right. rewrite Nat.add_0_r. now left.
        -- right. exists j, c', e. now rewrite Nat.add_succ_r.
Qed.

Lemma In_unparsed_pushed_all env dateCutoff events : forall i s d,
  In d (unparsed (pushed_all env dateCutoff events i s)) <->
  In d (unparsed s) \/
  exists j c obj err,
    nth_error events j = Some c /\
    outcome env dateCutoff c = IsUnparsed obj err /\
    d = {| number := (i + j)%nat; object := obj; diag_error := err |}.
Proof.
  induction events as [|c rest IH]; intros i s d; simpl.
  - split; [auto|]. intros [H|(j & c & obj & err & H & _)]; [assumption|].
    now destruct j.
  - rewrite IH. split.
    + intros [H|(j & c' & obj & err & Hn & Ho & ->)].
      * destruct (outcome env dateCutoff c) eqn:E; simpl in H; auto.
        apply in_app_or in H as [H|[<-|[]]]; auto.
        right. exists 0%nat, c, obj, err. rewrite Nat.add_0_r. auto.
      * right. exists (S j), c', obj, err. simpl.
        now rewrite Nat.add_succ_r.
    + intros [H|(j & c' & obj & err & Hn & Ho & ->)].
      * left. destruct (outcome env dateCutoff c); simpl; auto.
        apply in_or_app; auto.
      * destruct j as [|j]; simpl in Hn.
        -- injection Hn as ->. rewrite Ho. simpl. left.
           apply in_or_app. right. rewrite Nat.add_0_r. now left.
        -- right. exists j, c', obj, err. now rewrite Nat.add_succ_r.
Qed.

Lemma ImportICS_returns env events dateCutoff :
  exists r, ImportICS env events dateCutoff = Ok r.
Proof. rewrite ImportICS_outcome. eexists; reflexivity. Qed.

Lemma outcome_accepted env dateCutoff c ev :
  outcome env dateCutoff c = IsAccepted ev <->
  exists obj d,
    validated c obj d /\
    past_cutoff env dateCutoff (snd (ordered_dates env d)) = false /\
    ev = make_event d (ordered_dates env d).
Proof.
  unfold outcome, validated. split.
  - destruct (collect (ICAL.getAllProperties c) []) as [obj|e];
      [|discriminate].
    destruct (validate obj shape) as [[d|] [errs|]] eqn:V; simpl;
      try discriminate.
    destruct (past_cutoff env dateCutoff (snd (ordered_dates env d))) eqn:E;
      [discriminate|].
    intros [= <-]. exists obj, d. auto.
  - intros (obj & d & [-> ->] & Hc & ->). simpl. now rewrite Hc.
Qed.

Lemma outcome_dropped env dateCutoff c obj d :
  validated c obj d ->
  past_cutoff env dateCutoff (snd (ordered_dates env d)) = true ->
  outcome env dateCutoff c = IsDropped.
Proof.
  unfold outcome. intros [-> ->] Hc. simpl. now rewrite Hc.
Qed.

Lemma nth_error_middle {A} (l1 : list A) c l2 :
  nth_error (l1 ++ c :: l2) (List.length l1) = Some c.
Proof. induction l1; simpl; auto. Qed.

Lemma nth_error_skip {A} (l1 : list A) c l2 j x :
  nth_error (l1 ++ l2) j = Some x ->
  nth_error (l1 ++ c :: l2)
    (if (j <? List.length l1)%nat then j else S j) = Some x.
Proof.
  revert j. induction l1 as [|a l1 IH]; intros j H; simpl in *.
  - assumption.
  - destruct j as [|j]; simpl in *; [assumption|].
    specialize (IH j H).
    change (S j <? S (List.length l1))%nat with (j <? List.length l1)%nat.
    destruct (j <? List.length l1)%nat; assumption.
Qed.

(** ** Dates *)

Ltac div_arith := Z.div_mod_to_equations; lia.

Ltac pick_branch :=
  repeat match goal with
  | |- context [if true then ?a else ?b] =>
      change (if true then a else b) with a
  | |- context [if false then ?a else ?b] =>
      change (if false then a else b) with b
  end.

Lemma zone_bound env : -1440 < Dayjs.zone env < 1440.
Proof.
  pose proof (Dayjs.zone_in_range env) as H. apply Z.ltb_lt in H. lia.
Qed.

Lemma TimeClip_within zone local :
  -1440 < zone < 1440 ->
  -8639999913600000 <= local <= 8639999913600000 ->
  Dayjs.TimeClip zone local = Some local.
Proof.
  intros Hz Hl. unfold Dayjs.TimeClip, Dayjs.msPerMinute, Dayjs.maxTime.
  destruct (Z.leb_spec (Z.abs (local - zone * 60000)) 8640000000000000);
    [reflexivity|lia].
Qed.

Lemma TimeClip_inv zone local t :
  Dayjs.TimeClip zone local = Some t -> t = local.
Proof.
  unfold Dayjs.TimeClip. destruct (_ <=? _); congruence.
Qed.

(** The days of the years from -271820 to 275759 are days of [Date]. *)
Lemma days_from_civil_bounds y m d :
  -271820 <= y <= 275759 -> 1 <= m <= 12 -> 1 <= d <= 31 ->
  -99999999 <= Dayjs.days_from_civil y m d <= 99999999.
Proof.
  intros Hy Hm Hd. unfold Dayjs.days_from_civil. cbv zeta.
  destruct (Z.leb_spec m 2), (Z.ltb_spec 2 m); pick_branch; try lia;
    div_arith.
Qed.

Lemma Date_year_bounds y :
  -271820 <= y <= 275759 -> -271820 <= Date_year y <= 275759.
Proof.
  unfold Date_year. intros H.
  destruct (Z.leb_spec 0 y), (Z.leb_spec y 99); cbn [andb]; lia.
Qed.

Lemma new_Date_ordinary zone y m d :
  -1440 < zone < 1440 ->
  -271820 <= y <= 275759 -> 1 <= m <= 12 -> 1 <= d <= 31 ->
  Dayjs.new_Date zone y (m - 1) d
  = Some (Dayjs.days_from_civil (Date_year y) m d * Dayjs.msPerDay).
Proof.
  intros Hz Hy Hm Hd. unfold Dayjs.new_Date. cbv zeta.
  fold (Date_year y). pose proof (Date_year_bounds y Hy) as HY.
  destruct (Z.leb_spec (Z.abs (Date_year y)) 1000000); [|lia].
  destruct (Z.leb_spec (Z.abs (m - 1)) 10000000); [|lia].
  cbn [andb].
  assert (E : Dayjs.MakeDay (Date_year y) (m - 1) d
              = Dayjs.days_from_civil (Date_year y) m d).
  { unfold Dayjs.MakeDay. cbv zeta.
    replace ((m - 1) / 12) with 0 by div_arith.
    replace ((m - 1) mod 12 + 1) with m by div_arith.
    rewrite Z.add_0_r. unfold Dayjs.days_from_civil. cbv zeta. lia. }
  rewrite E. apply TimeClip_within; [assumption|].
  pose proof (days_from_civil_bounds (Date_year y) m d HY Hm Hd).
  unfold Dayjs.msPerDay. lia.
Qed.

(** [parseDate] of a date whose year is not 0 and that [Date] holds. *)
Lemma parseDate_day_number env y m d :
  y <> 0 -> -271820 <= y <= 275759 -> 1 <= m <= 12 -> 1 <= d <= 31 ->
  parseDate env {| year := y; month := m; day := d |}
  = Some (Dayjs.days_from_civil (Date_year y) m d * Dayjs.msPerDay).
Proof.
  intros Hy Hr Hm Hd.
  unfold parseDate, Dayjs.of_object. cbn [year month day].
  destruct (Z.eqb_spec d 0); [lia|].
  destruct (Z.eqb_spec y 0); [lia|].
  destruct (Z.leb_spec 0 (m - 1)); [|lia].
  apply new_Date_ordinary; auto using zone_bound.
Qed.

Lemma parseDate_ordinary env obj :
  ordinary_date obj = true ->
  parseDate env obj
  = Some (Dayjs.days_from_civil (Date_year (year obj)) (month obj) (day obj)
          * Dayjs.msPerDay).
Proof.
  unfold ordinary_date. rewrite !andb_true_iff, negb_true_iff.
  rewrite !Z.leb_le, Z.eqb_neq. intros H. destruct obj as [y m d].
  cbn [year month day] in *. apply parseDate_day_number; lia.
Qed.

(** A date whose year is not 0 takes nothing from the clock. *)
Lemma parseDate_clock env1 env2 obj :
  Dayjs.zone env1 = Dayjs.zone env2 -> year obj <> 0 ->
  parseDate env1 obj = parseDate env2 obj.
Proof.
  intros Hz Hy. unfold parseDate, Dayjs.of_object. rewrite Hz.
  destruct (Z.eqb_spec (year obj) 0); [contradiction|]. reflexivity.
Qed.

(** The calendar of the model: the date of a day number has a month from 1
    to 12 and a day from 1 to 31. *)
Lemma civil_from_days_range z :
  1 <= snd (fst (Dayjs.civil_from_days z)) <= 12 /\
  1 <= snd (Dayjs.civil_from_days z) <= 31.
Proof.
  unfold Dayjs.civil_from_days. cbv zeta. cbn [fst snd].
  set (z' := z + 719468).
  set (era := z' / 146097).
  set (doe := z' - era * 146097).
  assert (Hdoe : 0 <= doe < 146097) by (subst doe era; div_arith).
  clearbody doe era. clear z'.
  set (yoe := (doe - doe / 1460 + doe / 36524 - doe / 146096) / 365).
  set (doy := doe - (365 * yoe + yoe / 4 - yoe / 100)).
  assert (Hdoy : 0 <= doy <= 365) by (subst doy yoe; div_arith).
  clearbody doy.
  set (mp := (5 * doy + 2) / 153).
  assert (Hmp : 0 <= mp <= 11) by (subst mp; div_arith).
  assert (Hd : 1 <= doy - (153 * mp + 2) / 5 + 1 <= 31)
    by (subst mp; div_arith).
  clearbody mp.
  destruct (Z.ltb_spec mp 10); pick_branch; lia.
Qed.

(** A later day number has a later date. *)
Lemma civil_from_days_mono z1 z2 :
  z1 <= z2 ->
  calendar_le (Dayjs.civil_from_days z1) (Dayjs.civil_from_days z2).
Proof.
  intros H. unfold Dayjs.civil_from_days, calendar_le. cbv zeta.
  set (a := z1 + 719468). set (b := z2 + 719468).
  assert (Hab : a <= b) by (subst a b; lia). clearbody a b. clear H z1 z2.
  set (ea := a / 146097). set (eb := b / 146097).
  set (da := a - ea * 146097). set (db := b - eb * 146097).
  assert (Hda : 0 <= da < 146097) by (subst da ea; div_arith).
  assert (Hdb : 0 <= db < 146097) by (subst db eb; div_arith).
  assert (He : ea < eb \/ (ea = eb /\ da <= db))
    by (subst da db ea eb; div_arith).
  clearbody da db ea eb. clear Hab a b.
  set (ya := (da - da / 1460 + da / 36524 - da / 146096) / 365).
  set (yb := (db - db / 1460 + db / 36524 - db / 146096) / 365).
  set (oa := da - (365 * ya + ya / 4 - ya / 100)).
  set (ob := db - (365 * yb + yb / 4 - yb / 100)).
  assert (Hya : 0 <= ya <= 399) by (subst ya; div_arith).
  assert (Hyb : 0 <= yb <= 399) by (subst yb; div_arith).
  assert (Hoa : 0 <= oa <= 365) by (subst oa ya; div_arith).
  assert (Hob : 0 <= ob <= 365) by (subst ob yb; div_arith).
  assert (Hy : ea < eb
               \/ (ea = eb /\ (ya < yb \/ (ya = yb /\ oa <= ob)))).
  { destruct He as [He|[He Hd]]; [now left|right]. split; [assumption|].
    assert (ya <= yb) by (subst ya yb; div_arith).
    subst oa ob. div_arith. }
  clearbody oa ob ya yb. clear He Hda Hdb da db.
  set (pa := (5 * oa + 2) / 153). set (pb := (5 * ob + 2) / 153).
  set (ta := oa - (153 * pa + 2) / 5 + 1).
  set (tb := ob - (153 * pb + 2) / 5 + 1).
  assert (Hpa : 0 <= pa <= 11) by (subst pa; div_arith).
  assert (Hpb : 0 <= pb <= 11) by (subst pb; div_arith).
  assert (Hp : oa <= ob -> pa < pb \/ (pa = pb /\ ta <= tb)).
  { intros Ho. assert (pa <= pb) by (subst pa pb; div_arith).
    subst ta tb. div_arith. }
  clearbody ta tb pa pb.
  destruct (Z.ltb_spec pa 10); destruct (Z.ltb_spec pb 10); pick_branch;
    repeat match goal with
    | |- context [?x <=? 2] => destruct (Z.leb_spec x 2); pick_branch
    end; lia.
Qed.

Lemma formatDate_printed ms :
  formatDate (Some ms)
  = let '(y, m, d) := printed_date ms in
    Dayjs.padStart y 4 ++ [45%N] ++ Dayjs.padStart m 2 ++ [45%N]
      ++ Dayjs.padStart d 2.
Proof. reflexivity. Qed.

Lemma printed_date_mono t0 t1 :
  t0 <= t1 -> calendar_le (printed_date t0) (printed_date t1).
Proof.
  intros H. apply civil_from_days_mono.
  apply Z.div_le_mono; [reflexivity|assumption].
Qed.

Lemma ordered_dates_swap env d :
  ordered_dates env d
  = if Dayjs.isBefore (parseDate env (range_end d))
         (parseDate env (dtstart d))
    then (parseDate env (range_end d), parseDate env (dtstart d))
    else (parseDate env (dtstart d), parseDate env (range_end d)).
Proof. reflexivity. Qed.

Lemma ordered_dates_valid env d ts te :
  parseDate env (dtstart d) = Some ts ->
  parseDate env (range_end d) = Some te ->
  ordered_dates env d
  = if te <? ts then (Some te, Some ts) else (Some ts, Some te).
Proof.
  intros Hs He. rewrite ordered_dates_swap, Hs, He.
  cbn [Dayjs.isBefore]. destruct (te <? ts); reflexivity.
Qed.

(** Two valid boundaries are in order. *)
Lemma ordered_dates_le env d t0 t1 :
  ordered_dates env d = (Some t0, Some t1) -> t0 <= t1.
Proof.
  rewrite ordered_dates_swap.
  destruct (parseDate env (range_end d)) as [te|],
    (parseDate env (dtstart d)) as [ts|]; cbn [Dayjs.isBefore];
    try discriminate.
  destruct (Z.ltb_spec te ts); intros [= <- <-]; lia.
Qed.

(** The range is the same on two hosts that read the two dates alike. *)
Lemma ordered_dates_hosts env1 env2 d :
  parseDate env1 (dtstart d) = parseDate env2 (dtstart d) ->
  parseDate env1 (range_end d) = parseDate env2 (range_end d) ->
  ordered_dates env1 d = ordered_dates env2 d.
Proof. intros Hs He. now rewrite !ordered_dates_swap, Hs, He. Qed.

Lemma ordered_dates_ordinary env1 env2 d :
  ordinary_date (dtstart d) = true ->
  ordinary_date (range_end d) = true ->
  ordered_dates env1 d = ordered_dates env2 d.
Proof.
  intros Hs He. apply ordered_dates_hosts; now rewrite !parseDate_ordinary.
Qed.

Lemma isAfter_strictly_after a b :
  Dayjs.isAfter a b = true <-> strictly_after a b.
Proof.
  unfold Dayjs.isAfter, strictly_after. split.
  - destruct a as [ta|], b as [tb|]; try discriminate.
    intros H. exists ta, tb. split; [reflexivity|]. split; [reflexivity|].
    now apply Z.ltb_lt.
  - intros (ta & tb & -> & -> & H). now apply Z.ltb_lt.
Qed.

Lemma past_cutoff_supplied env D e :
  D <> [] ->
  past_cutoff env (Some D) e = Dayjs.isAfter e (Dayjs.of_string env D).
Proof. unfold past_cutoff. destruct D; [congruence|reflexivity]. Qed.

Lemma padStart_length n len : (len <= List.length (Dayjs.padStart n len))%nat.
Proof.
  unfold Dayjs.padStart.
  destruct (len <=? List.length (String_of_Z n))%nat eqn:E.
  - now apply Nat.leb_le.
  - apply Nat.leb_gt in E. rewrite length_app, repeat_length.
    unfold codeunit in *. lia.
Qed.

(** A formatted date has the ten characters of YYYY-MM-DD at least. *)
Lemma formatDate_length d : (10 <= List.length (formatDate d))%nat.
Proof.
  unfold formatDate, Dayjs.format_YYYY_MM_DD. destruct d as [ms|].
  - destruct (Dayjs.civil_from_days (ms / Dayjs.msPerDay)) as [[y m] dd].
    rewrite !length_app. cbn [List.length].
    pose proof (padStart_length y 4). pose proof (padStart_length m 2).
    pose proof (padStart_length dd 2). unfold jsstring, codeunit in *. lia.
  - vm_compute. lia.
Qed.

Lemma formatDate_nonempty d : formatDate d <> [].
Proof.
  pose proof (formatDate_length d) as H. intros E. rewrite E in H.
  simpl in H. lia.
Qed.

(** ** One run on two hosts *)

Lemma outcome_hosts env1 env2 dateCutoff c :
  (forall obj d, validated c obj d ->
     ordered_dates env1 d = ordered_dates env2 d /\
     past_cutoff env1 dateCutoff (snd (ordered_dates env2 d))
     = past_cutoff env2 dateCutoff (snd (ordered_dates env2 d))) ->
  outcome env1 dateCutoff c = outcome env2 dateCutoff c.
Proof.
  unfold outcome, validated. intros H.
  destruct (collect (ICAL.getAllProperties c) []) as [obj|e]; [|reflexivity].
  destruct (validate obj shape) as [[d|] [errs|]] eqn:V; cbn [error data];
    try reflexivity.
  destruct (H obj d (conj eq_refl V)) as [Ho Hc].
  now rewrite Ho, Hc.
Qed.

Lemma ImportICS_hosts env1 env2 events dateCutoff :
  (forall c, In c events ->
     outcome env1 dateCutoff c = outcome env2 dateCutoff c) ->
  ImportICS env1 events dateCutoff = ImportICS env2 events dateCutoff.
Proof.
  intros H. rewrite !ImportICS_outcome.
  assert (Ha : accepted env1 dateCutoff events
               = accepted env2 dateCutoff events).
  { unfold accepted. f_equal. apply map_ext_in. intros c Hc.
    now rewrite (H c Hc). }
  assert (Hp : forall i s, pushed_all env1 dateCutoff events i s
                           = pushed_all env2 dateCutoff events i s).
  { clear Ha. induction events as [|c rest IH]; intros i s; [reflexivity|].
    cbn [pushed_all]. rewrite (H c (or_introl eq_refl)).
    apply IH. intros c' Hc'. apply H. now right. }
  now rewrite Ha, Hp.
Qed.

(** A run over sample components whose dates are ordinary is the run on
    the sample host. *)
Ltac on_sample_host env :=
  rewrite (ImportICS_hosts env Sample.env)
    by (let c := fresh "c" in
        let Hin := fresh "Hin" in
        let obj := fresh "obj" in
        let d := fresh "d" in
        let Hc := fresh "Hc" in
        let Hv := fresh "Hv" in
        intros c Hin; cbn [In] in Hin;
        repeat (destruct Hin as [<-|Hin]); [..|contradiction];
        apply outcome_hosts; intros obj d [Hc Hv];
        vm_compute in Hc; try discriminate Hc; injection Hc as <-;
        vm_compute in Hv; try discriminate Hv; injection Hv as <-;
        (split; [apply ordered_dates_ordinary; reflexivity|reflexivity])).

(** ** The date range of an accepted record *)

(** C1, amended.  For every validated event the range starts at [dtstart]
    and ends at [rrule.until] when there is a recurrence and at [dtstart]
    otherwise; when that end is before the start the two are swapped; and
    the event is accepted, with the two boundaries formatted as its [start]
    and [end], unless the cutoff drops it.  Every accepted record is the
    record of such an event.  So whenever the two boundaries are valid dates,
    the time value that [start] formats is never later than the one that
    [end] formats, and the year, month and day printed as [start] are on or
    before those printed as [end].  (A boundary outside the range of [Date]
    is no date: it is never before or after another, so it is never swapped,
    and it is printed as Invalid Date.) *)
Theorem accepted_range_ordered env events dateCutoff :
  exists r,
    ImportICS env events dateCutoff = Ok r /\
    (forall c obj d,
       In c events -> validated c obj d ->
       let s := parseDate env (dtstart d) in
       let e := parseDate env (match rrule d with
                               | Some rule => until rule
                               | None => dtstart d
                               end) in
       ordered_dates env d = (if Dayjs.isBefore e s then (e, s) else (s, e))
       /\
       (past_cutoff env dateCutoff (snd (ordered_dates env d)) = false ->
        exists ev,
          In ev (parsed r) /\
          ev = make_event d (ordered_dates env d) /\
          start (dates ev) = formatDate (fst (ordered_dates env d)) /\
          end_ (dates ev) = formatDate (snd (ordered_dates env d))) /\
       (forall ts te,
          s = Some ts -> e = Some te ->
          exists t0 t1,
            (t0, t1) = (if te <? ts then (te, ts) else (ts, te)) /\
            ordered_dates env d = (Some t0, Some t1) /\
            t0 <= t1 /\
            calendar_le (printed_date t0) (printed_date t1))) /\
    (forall ev, In ev (parsed r) ->
       exists c obj d,
         In c events /\ validated c obj d /\
         ev = make_event d (ordered_dates env d) /\
         start (dates ev) = formatDate (fst (ordered_dates env d)) /\
         end_ (dates ev) = formatDate (snd (ordered_dates env d)) /\
         forall t0 t1,
           ordered_dates env d = (Some t0, Some t1) ->
           t0 <= t1 /\ calendar_le (printed_date t0) (printed_date t1)).
Proof.
  rewrite ImportICS_outcome. eexists; split; [reflexivity|].
  cbn [parsed]. split.
  - intros c obj d Hc Hv. cbv zeta. split; [reflexivity|]. split.
    + intros Hcut. exists (make_event d (ordered_dates env d)).
      split; [|repeat split].
      apply In_accepted. exists c. split; [assumption|].
      apply outcome_accepted. exists obj, d. auto.
    + intros ts te Hs He. fold (range_end d) in He.
      exists (if te <? ts then te else ts), (if te <? ts then ts else te).
      rewrite (ordered_dates_valid env d ts te Hs He).
      destruct (Z.ltb_spec te ts); repeat (split; [reflexivity|]).
      * split; [lia|]. apply printed_date_mono. lia.
      * split; [lia|]. now apply printed_date_mono.
  - intros ev Hev. apply In_accepted in Hev as (c & Hc & Ho).
    apply outcome_accepted in Ho as (obj & d & Hv & _ & ->).
    exists c, obj, d. repeat (split; [assumption || reflexivity|]).
    intros t0 t1 E. pose proof (ordered_dates_le env d t0 t1 E).
    split; [assumption|]. now apply printed_date_mono.
Qed.

(** The reversed event of the samples: its two boundaries are swapped and
    its record is accepted. *)
Lemma accepted_range_witness :
  exists r ev,
    ImportICS Sample.env [Sample.team_meeting; Sample.reversed] None = Ok r /\
    In ev (parsed r) /\
    start (dates ev) = JS.str "2024-01-10" /\
    end_ (dates ev) = JS.str "2024-01-15".
Proof.
  destruct (accepted_range_ordered Sample.env
              [Sample.team_meeting; Sample.reversed] None)
    as (r & Hr & Hpos & _).
  destruct (Hpos Sample.reversed
              [ (JS.str "uid",
                 VString (JS.str "1234567890-rev001-999999@afosterri.org"));
                (JS.str "summary", VString (JS.str "Work Weekend"));
                (JS.str "dtstart", Sample.date 2024 1 15);
                (JS.str "rrule",
                 Sample.recur "DAILY" (Sample.date 2024 1 10)) ]
              {| uid := JS.str "rev001";
                 summary := Some (JS.str "Work Weekend");
                 dtstart := {| year := 2024; month := 1; day := 15 |};
                 dtend := None; categories := None; description := None;
                 rrule := Some {| until := {| year := 2024; month := 1;
                                              day := 10 |} |} |}
              (or_intror (or_introl eq_refl)) (conj eq_refl eq_refl))
    as (_ & Hin & _).
  destruct (Hin eq_refl) as (ev & Hev & _ & Hs & He).
  exists r, ev. split; [exact Hr|]. split; [exact Hev|].
  split; [exact Hs|exact He].
Defined.

(** ** The end date of an accepted record *)

(** C10.  In every run the list [rr] of the accepted records without an end
    date is empty, so the count logged for it is zero: the [end] of every
    accepted record is a formatted date, of ten characters at least, which
    is never the empty string. *)
Theorem no_end_day_count_zero env events dateCutoff :
  exists r,
    ImportICS env events dateCutoff = Ok r /\
    rr r = [] /\
    List.length (rr r) = 0%nat /\
    forall ev, In ev (parsed r) ->
      end_ (dates ev) <> [] /\
      JS.truthy (end_ (dates ev)) = true /\
      (10 <= List.length (end_ (dates ev)))%nat.
Proof.
  rewrite ImportICS_outcome. eexists; split; [reflexivity|].
  cbn [parsed rr].
  assert (H : forall ev, In ev (accepted env dateCutoff events) ->
                         end_ (dates ev) <> []).
  { intros ev Hev. apply In_accepted in Hev as (c & _ & Ho).
    apply outcome_accepted in Ho as (obj & d & _ & _ & ->).
    apply formatDate_nonempty. }
  assert (E : filter (fun c => negb (JS.truthy (end_ (dates c))))
                (accepted env dateCutoff events) = []).
  { induction (accepted env dateCutoff events) as [|ev l IH];
      [reflexivity|].
    simpl. rewrite (proj2 (truthy_nonempty _) (H ev (or_introl eq_refl))).
    simpl. apply IH. intros ev' Hev'. apply H. now right. }
  rewrite E. split; [reflexivity|]. split; [reflexivity|].
  intros ev Hev. split; [now apply H|]. split; [now apply truthy_nonempty, H|].
  apply In_accepted in Hev as (c & _ & Ho).
  apply outcome_accepted in Ho as (obj & d & _ & _ & ->).
  apply formatDate_length.
Qed.

(** ** Determinism *)

(** C8, amended.  Two runs on the same components and the same cutoff, on
    hosts with the same time zone and the same reading of strings, return
    the same result, accepted records and buckets alike, whatever the
    clocks, when no validated event has a date whose year is 0. *)
Theorem pipeline_deterministic env1 env2 events dateCutoff :
  Dayjs.zone env1 = Dayjs.zone env2 ->
  (forall s, Dayjs.of_string env1 s = Dayjs.of_string env2 s) ->
  (forall c obj d,
     In c events -> validated c obj d ->
     year (dtstart d) <> 0 /\
     forall rule, rrule d = Some rule -> year (until rule) <> 0) ->
  exists r,
    ImportICS env1 events dateCutoff = Ok r /\
    ImportICS env2 events dateCutoff = Ok r.
Proof.
  intros Hz Hs Hy.
  destruct (ImportICS_returns env2 events dateCutoff) as [r Hr].
  exists r. split; [|exact Hr]. rewrite <- Hr.
  apply ImportICS_hosts. intros c Hc. apply outcome_hosts.
  intros obj d Hv. destruct (Hy c obj d Hc Hv) as [Hstart Hend]. split.
  - apply ordered_dates_hosts; apply parseDate_clock; try assumption.
    unfold range_end. destruct (rrule d) as [rule|]; auto.
  - unfold past_cutoff. destruct dateCutoff as [D|]; [|reflexivity].
    now rewrite Hs.
Qed.

Lemma pipeline_deterministic_witness :
  exists r,
    ImportICS Sample.env
      [Sample.team_meeting; Sample.reversed; Sample.late]
      (Some (JS.str "2024-12-31")) = Ok r /\
    ImportICS Sample.a_year_later
      [Sample.team_meeting; Sample.reversed; Sample.late]
      (Some (JS.str "2024-12-31")) = Ok r.
Proof.
  apply (pipeline_deterministic Sample.env Sample.a_year_later
           [Sample.team_meeting; Sample.reversed; Sample.late]
           (Some (JS.str "2024-12-31")) eq_refl (fun s => eq_refl)).
  intros c obj d Hin [Hc Hv]. cbn [In] in Hin.
  repeat (destruct Hin as [<-|Hin]); [..|contradiction];
    vm_compute in Hc; injection Hc as <-;
    vm_compute in Hv; injection Hv as <-;
    (split; [discriminate|]); intros rule [= <-]; discriminate.
Defined.

(** C8 as stated fails: the same component and the same cutoff give other
    records a year later.  The start of the event has the year 0, for which
    dayjs takes the current year. *)
Lemma year_zero_follows_the_clock :
  exists r1 r2,
    ImportICS Sample.env [Sample.yearless] None = Ok r1 /\
    ImportICS Sample.a_year_later [Sample.yearless] None = Ok r2 /\
    map dates (parsed r1)
    = [ {| start := JS.str "2024-03-14"; end_ := JS.str "2024-03-14" |} ] /\
    map dates (parsed r2)
    = [ {| start := JS.str "2025-03-14"; end_ := JS.str "2025-03-14" |} ] /\
    parsed r1 <> parsed r2.
Proof.
  do 2 eexists. split; [vm_compute; reflexivity|].
  split; [vm_compute; reflexivity|].
  split; [reflexivity|]. split; [reflexivity|]. discriminate.
Qed.

(** ** Extraction failures *)

Lemma collect_throws ps1 p ps2 e : forall obj,
  Forall (fun q => JS.eqb (ICAL.name q) (JS.str "exdate") = true
                   \/ exists vs, ICAL.getValues q = Ok vs) ps1 ->
  JS.eqb (ICAL.name p) (JS.str "exdate") = false ->
  ICAL.getValues p = Throw e ->
  collect (ps1 ++ p :: ps2) obj = Throw e.
Proof.
  induction ps1 as [|q ps1 IH]; intros obj Hall Hn He; simpl.
  - now rewrite Hn, He.
  - inversion Hall as [|q' l' [Hq|[vs Hq]] Hrest]; subst.
    + rewrite Hq. now apply IH.
    + rewrite Hq.
      destruct (JS.eqb (ICAL.name q) (JS.str "exdate")); now apply IH.
Qed.

(** C7.  When reading the value of a property of a component raises (an
    exdate property is skipped and never read), the run still returns; the
    broken bucket holds one diagnostic for that component, with its index,
    its properties and the error; the unparsed bucket holds none for it; and
    the accepted records and the diagnostics of the other components are
    those of the run without it, each diagnostic under the index of its
    component. *)
Theorem extraction_failure_is_broken env dateCutoff l1 c l2 ps1 p ps2 e :
  ICAL.getAllProperties c = ps1 ++ p :: ps2 ->
  Forall (fun q => JS.eqb (ICAL.name q) (JS.str "exdate") = true
                   \/ exists vs, ICAL.getValues q = Ok vs) ps1 ->
  JS.eqb (ICAL.name p) (JS.str "exdate") = false ->
  ICAL.getValues p = Throw e ->
  exists r r',
    ImportICS env (l1 ++ c :: l2) dateCutoff = Ok r /\
    ImportICS env (l1 ++ l2) dateCutoff = Ok r' /\
    parsed r = parsed r' /\
    In {| number := List.length l1;
          object := ICAL.getAllProperties c;
          diag_error := e |} (broken (buckets r)) /\
    (forall d, In d (broken (buckets r)) -> number d = List.length l1 ->
               d = {| number := List.length l1;
                      object := ICAL.getAllProperties c;
                      diag_error := e |}) /\
    (forall u, In u (unparsed (buckets r)) -> number u <> List.length l1) /\
    (forall d, In d (broken (buckets r')) ->
               In (renumbered (List.length l1) d) (broken (buckets r))) /\
    (forall u, In u (unparsed (buckets r')) ->
               In (renumbered (List.length l1) u) (unparsed (buckets r))).
Proof.
  intros Hps Hall Hn He.
  assert (Ho : outcome env dateCutoff c = IsBroken e).
  { unfold outcome. rewrite Hps.
    now rewrite (collect_throws ps1 p ps2 e [] Hall Hn He). }
  rewrite !ImportICS_outcome. do 2 eexists.
  split; [reflexivity|]. split; [reflexivity|]. cbn [parsed buckets].
  split; [apply accepted_skip; now rewrite Ho|].
  split; [|split; [|split; [|split]]].
  - apply In_broken_pushed_all. right.
    exists (List.length l1), c, e. split; [apply nth_error_middle|auto].
  - intros d Hd Hnum. apply In_broken_pushed_all in Hd.
    destruct Hd as [[]|(j & c' & e' & Hj & Ho' & ->)].
    cbn [number] in Hnum. simpl in Hnum. subst j.
    rewrite nth_error_middle in Hj. injection Hj as <-.
    rewrite Ho in Ho'. now injection Ho' as <-.
  - intros u Hu Hnum. apply In_unparsed_pushed_all in Hu.
    destruct Hu as [[]|(j & c' & obj & err & Hj & Ho' & ->)].
    cbn [number] in Hnum. simpl in Hnum. subst j.
    rewrite nth_error_middle in Hj. injection Hj as <-.
    rewrite Ho in Ho'. discriminate.
  - intros d Hd. apply In_broken_pushed_all in Hd.
    destruct Hd as [[]|(j & c' & e' & Hj & Ho' & ->)].
    apply In_broken_pushed_all. right.
    exists (if (j <? List.length l1)%nat then j else S j), c', e'.
    split; [now apply nth_error_skip|]. split; [assumption|].
    unfold renumbered. cbn [number object diag_error]. reflexivity.
  - intros u Hu. apply In_unparsed_pushed_all in Hu.
    destruct Hu as [[]|(j & c' & obj & err & Hj & Ho' & ->)].
    apply In_unparsed_pushed_all. right.
    exists (if (j <? List.length l1)%nat then j else S j), c', obj, err.
    split; [now apply nth_error_skip|]. split; [assumption|].
    unfold renumbered. cbn [number object diag_error]. reflexivity.
Qed.

(** ** The cutoff *)

(** C5.  With a cutoff date [D] supplied, a validated record whose end,
    after the swap, is strictly after [D] leaves no trace: no diagnostic in
    broken or unparsed carries its index and the accepted records are those
    of the run without it; and every accepted record comes from a validated
    event whose end is not strictly after [D]. *)
Theorem cutoff_drops env D events :
  D <> [] ->
  exists r,
    ImportICS env events (Some D) = Ok r /\
    (forall l1 c l2 obj d,
       events = l1 ++ c :: l2 ->
       validated c obj d ->
       strictly_after (snd (ordered_dates env d)) (Dayjs.of_string env D) ->
       (forall b, In b (broken (buckets r)) -> number b <> List.length l1) /\
       (forall u, In u (unparsed (buckets r)) -> number u <> List.length l1) /\
       exists r', ImportICS env (l1 ++ l2) (Some D) = Ok r' /\
                  parsed r = parsed r') /\
    (forall ev, In ev (parsed r) ->
       exists c obj d,
         In c events /\ validated c obj d /\
         ev = make_event d (ordered_dates env d) /\
         ~ strictly_after (snd (ordered_dates env d))
             (Dayjs.of_string env D)).
Proof.
  intros HD. rewrite ImportICS_outcome. eexists; split; [reflexivity|].
  cbn [parsed buckets]. split.
  - intros l1 c l2 obj d -> Hv Hafter.
    assert (Ho : outcome env (Some D) c = IsDropped).
    { apply (outcome_dropped env (Some D) c obj d Hv).
      rewrite past_cutoff_supplied by assumption.
      now apply isAfter_strictly_after. }
    split; [|split].
    + intros b Hb Hnum. apply In_broken_pushed_all in Hb.
      destruct Hb as [[]|(j & c' & e' & Hj & Ho' & ->)].
      cbn [number] in Hnum. simpl in Hnum. subst j.
      rewrite nth_error_middle in Hj. injection Hj as <-.
      rewrite Ho in Ho'. discriminate.
    + intros u Hu Hnum. apply In_unparsed_pushed_all in Hu.
      destruct Hu as [[]|(j & c' & obj' & err & Hj & Ho' & ->)].
      cbn [number] in Hnum. simpl in Hnum. subst j.
      rewrite nth_error_middle in Hj. injection Hj as <-.
      rewrite Ho in Ho'. discriminate.
    + rewrite ImportICS_outcome. eexists; split; [reflexivity|].
      cbn [parsed]. apply accepted_skip. now rewrite Ho.
  - intros ev Hev. apply In_accepted in Hev as (c & Hc & Ho).
    apply outcome_accepted in Ho as (obj & d & Hv & Hcut & ->).
    exists c, obj, d. repeat (split; [assumption || reflexivity|]).
    rewrite past_cutoff_supplied in Hcut by assumption.
    intros Hafter. apply isAfter_strictly_after in Hafter. congruence.
Qed.

Lemma cutoff_drops_witness :
  JS.str "2024-12-31" <> [] /\
  exists r r',
    ImportICS Sample.env [Sample.team_meeting; Sample.late]
      (Some (JS.str "2024-12-31")) = Ok r /\
    ImportICS Sample.env [Sample.team_meeting]
      (Some (JS.str "2024-12-31")) = Ok r' /\
    parsed r = parsed r' /\
    (forall u, In u (unparsed (buckets r)) -> number u <> 1%nat).
Proof.
  assert (HD : JS.str "2024-12-31" <> []) by discriminate.
  split; [exact HD|].
  destruct (cutoff_drops Sample.env (JS.str "2024-12-31")
              [Sample.team_meeting; Sample.late] HD) as (r & Hr & Hdrop & _).
  destruct (Hdrop [Sample.team_meeting] Sample.late [] _ _ eq_refl
              (conj eq_refl eq_refl))
    as (_ & Hu & r' & Hr' & Hp).
  - exists 1735689600000, 1735603200000.
    split; [reflexivity|]. split; [reflexivity|]. reflexivity.
  - exists r, r'. auto.
Defined.

Lemma extraction_failure_witness :
  exists r r',
    ImportICS Sample.env
      [Sample.team_meeting; Sample.malformed; Sample.reversed] None = Ok r /\
    ImportICS Sample.env [Sample.team_meeting; Sample.reversed] None = Ok r' /\
    parsed r = parsed r' /\
    In {| number := 1%nat;
          object := ICAL.getAllProperties Sample.malformed;
          diag_error := JS.str "invalid value" |} (broken (buckets r)).
Proof.
  assert (Hall : Forall
            (fun q => JS.eqb (ICAL.name q) (JS.str "exdate") = true
                      \/ exists vs, ICAL.getValues q = Ok vs)
            [Sample.prop "uid"
               (VString (JS.str "1234567890-bad001-999999@afosterri.org"))]).
  { constructor; [right; eexists; reflexivity|constructor]. }
  destruct (extraction_failure_is_broken Sample.env None
              [Sample.team_meeting] Sample.malformed [Sample.reversed]
              [Sample.prop "uid"
                 (VString (JS.str "1234567890-bad001-999999@afosterri.org"))]
              (Sample.raising "dtstart") [] (JS.str "invalid value")
              eq_refl Hall eq_refl eq_refl)
    as (r & r' & Hr & Hr' & Hp & Hb & _).
  exists r, r'. auto.
Defined.

(** ** The text repair *)

Lemma replace_artifact_nth s i c :
  nth_error s i = Some c ->
  nth_error (replace_artifact s) i
  = Some (if (c =? REPLACEMENT_CHARACTER)%N
          then RIGHT_SINGLE_QUOTATION_MARK else c).
Proof.
  revert i. induction s as [|x s IH]; intros [|i] H; simpl in *;
    try discriminate.
  - now injection H as ->.
  - now apply IH.
Qed.

Lemma replace_artifact_clean s : ~ In REPLACEMENT_CHARACTER (replace_artifact s).
Proof.
  unfold replace_artifact. intros H. apply in_map_iff in H as (c & Hc & _).
  destruct (c =? REPLACEMENT_CHARACTER)%N eqn:E.
  - discriminate.
  - apply N.eqb_neq in E. congruence.
Qed.

(** C6, amended.  On a non-empty string the repair replaces every
    replacement character by a right single quotation mark and leaves the
    other characters in place; on an absent string and on the empty string it
    returns [undefined]. *)
Theorem fixApostrophe_repairs :
  (forall s, s <> [] ->
     fixApostrophe (Some s) = Some (replace_artifact s) /\
     List.length (replace_artifact s) = List.length s /\
     ~ In REPLACEMENT_CHARACTER (replace_artifact s) /\
     forall i c, nth_error s i = Some c ->
       nth_error (replace_artifact s) i
       = Some (if (c =? REPLACEMENT_CHARACTER)%N
               then RIGHT_SINGLE_QUOTATION_MARK else c)) /\
  fixApostrophe None = None /\
  fixApostrophe (Some []) = None.
Proof.
  split; [|split; reflexivity].
  intros s Hs. split; [|split; [|split]].
  - destruct s; [congruence|reflexivity].
  - apply length_map.
  - apply replace_artifact_clean.
  - intros i c. apply replace_artifact_nth.
Qed.

(** C6 as stated fails: the empty string is not returned unchanged. *)
Lemma fixApostrophe_empty_not_unchanged :
  fixApostrophe (Some []) <> Some [].
Proof. discriminate. Qed.

(** ** The category *)

(** C4, amended.  An absent category gives [null], as the label Meeting
    does; each of the other five labels gives its identifier, and the five
    identifiers differ. *)
Theorem cabin_resolution :
  cabin_of None = Null /\
  cabin_of (Some (JS.str "Meeting")) = Null /\
  cabins = map JS.str ["Foster"; "House"; "Ide"; "Kendrew"; "Meeting";
                       "Mosher"]%string /\
  map (fun label => cabin_of (Some (JS.str label)))
      ["Foster"; "House"; "Ide"; "Kendrew"; "Mosher"]%string
  = map (fun id => Val (JS.str id))
      ["45617389-7678-42bf-bfb4-83304a389dc7";
       "430a512f-6a35-4ed0-9e4b-4efa7a90a0e7";
       "d0b162c0-8a64-4946-b148-a7362c296709";
       "2bb998a2-7c9a-4367-bcdb-b8e8a144b8a7";
       "649d65b6-9a50-491f-b0f2-8a0e22ee6275"]%string /\
  NoDup (map JS.str
      ["45617389-7678-42bf-bfb4-83304a389dc7";
       "430a512f-6a35-4ed0-9e4b-4efa7a90a0e7";
       "d0b162c0-8a64-4946-b148-a7362c296709";
       "2bb998a2-7c9a-4367-bcdb-b8e8a144b8a7";
       "649d65b6-9a50-491f-b0f2-8a0e22ee6275"]%string).
Proof.
  repeat (split; [vm_compute; reflexivity|]).
  vm_compute. repeat constructor; simpl; intuition discriminate.
Qed.

(** C4 as stated fails: an absent category does not give [undefined]. *)
Lemma cabin_of_absent_not_undefined : cabin_of None <> Undefined.
Proof. discriminate. Qed.

(** ** The scenario of the specification *)

(** C3, amended.  The component Team Meeting of 2024-01-15, without
    recurrence or category, gives one accepted record and no diagnostic: the
    import id abc123, the title, no description, the location [null] and the
    range from 2024-01-15 to 2024-01-15. *)
Theorem team_meeting_record env :
  ImportICS env [Sample.team_meeting] None
  = Ok {| parsed :=
            [ {| importId := JS.str "abc123";
                 title := Some (JS.str "Team Meeting");
                 event_description := None;
                 cabin := Null;
                 dates := {| start := JS.str "2024-01-15";
                             end_ := JS.str "2024-01-15" |} |} ];
          buckets := {| broken := []; unparsed := [] |};
          rr := [] |}.
Proof. on_sample_host env. vm_compute. reflexivity. Qed.

(** C3 as stated fails: the record with the location [undefined] is not
    what the run returns. *)
Lemma team_meeting_location_not_undefined :
  ~ exists r,
      ImportICS Sample.env [Sample.team_meeting] None = Ok r /\
      parsed r = [Sample.expected_team_meeting].
Proof.
  intros (r & Hr & Hp). vm_compute in Hr. injection Hr as <-.
  vm_compute in Hp. discriminate.
Qed.

(** ** The pattern matcher *)

Section Matcher.

Context {X : Type}.
Implicit Types (k : jsstring -> list jsstring -> option X) (x : X).

Lemma one_some (p : codeunit -> bool) s (k : jsstring -> option X) x :
  one p s k = Some x <->
  exists c s', s = c :: s' /\ p c = true /\ k s' = Some x.
Proof.
  unfold one. split.
  - destruct s as [|c s']; [discriminate|].
    destruct (p c) eqn:E; [|discriminate]. intros H. exists c, s'. auto.
  - intros (c & s' & -> & -> & H). exact H.
Qed.

Lemma rmatch_seq r1 r2 s caps k :
  rmatch (Seq r1 r2) s caps k
  = rmatch r1 s caps (fun s' caps' => rmatch r2 s' caps' k).
Proof. reflexivity. Qed.

Lemma rmatch_lit c s caps k : rmatch (Lit c) (c :: s) caps k = k s caps.
Proof. cbn [rmatch one]. now rewrite N.eqb_refl. Qed.

Lemma rmatch_lit_other c c' s caps k :
  c <> c' -> rmatch (Lit c) (c' :: s) caps k = None.
Proof.
  intros H. cbn [rmatch one]. apply N.eqb_neq in H. now rewrite H.
Qed.

Lemma rmatch_lit_inv c s caps k x :
  rmatch (Lit c) s caps k = Some x ->
  exists s', s = c :: s' /\ k s' caps = Some x.
Proof.
  cbn [rmatch]. intros H. apply one_some in H as (c' & s' & -> & E & H).
  apply N.eqb_eq in E as <-. exists s'. auto.
Qed.

Lemma rmatch_lits l r s caps k :
  rmatch (lits l r) (l ++ s) caps k = rmatch r s caps k.
Proof.
  induction l as [|c l IH]; simpl; [reflexivity|].
  now rewrite N.eqb_refl.
Qed.

Lemma rmatch_lits_inv l r : forall s caps k x,
  rmatch (lits l r) s caps k = Some x ->
  exists s', s = l ++ s' /\ rmatch r s' caps k = Some x.
Proof.
  induction l as [|c l IH]; intros s caps k x H; simpl in *.
  - exists s. auto.
  - apply one_some in H as (c' & s1 & -> & E & H).
    apply N.eqb_eq in E as <-.
    apply IH in H as (s' & -> & H). exists s'. auto.
Qed.

Lemma repeat_digit p : forall s caps k,
  forallb is_digit p = true ->
  rmatch (Repeat (List.length p) Digit) (p ++ s) caps k = k s caps.
Proof.
  cbn [rmatch]. induction p as [|c p IH]; intros s caps k H; simpl in *.
  - reflexivity.
  - apply andb_true_iff in H as [Hc Hp]. rewrite Hc. now apply IH.
Qed.

Lemma repeat_digit_inv n : forall s caps k x,
  rmatch (Repeat n Digit) s caps k = Some x ->
  exists p s', s = p ++ s' /\ List.length p = n /\
               forallb is_digit p = true /\ k s' caps = Some x.
Proof.
  cbn [rmatch]. induction n as [|n IH]; intros s caps k x H; simpl in H.
  - exists [], s. auto.
  - apply one_some in H as (c & s1 & -> & E & H).
    apply IH in H as (p & s' & -> & Hl & Hp & H).
    exists (c :: p), s'. simpl. rewrite E, Hp, Hl. auto.
Qed.

Lemma plus_word_step fuel c s caps k :
  plus_loop (rmatch Word) (S fuel) (c :: s) caps k
  = if is_word c
    then match plus_loop (rmatch Word) fuel s caps k with
         | Some x => Some x
         | None => k s caps
         end
    else None.
Proof. reflexivity. Qed.

Lemma plus_word_stop fuel s caps k :
  match s with c :: _ => is_word c = false | [] => True end ->
  plus_loop (rmatch Word) fuel s caps k = None.
Proof.
  intros H. destruct fuel; [reflexivity|].
  destruct s as [|c s]; [reflexivity|].
  now rewrite plus_word_step, H.
Qed.

(** The loop takes the whole run of word characters when the rest of the
    pattern cannot start with one: what it gives back is refused. *)
Lemma plus_word t : forall fuel rest caps k,
  t <> [] -> forallb is_word t = true ->
  (List.length t <= fuel)%nat ->
  (forall c s' caps', is_word c = true -> k (c :: s') caps' = None) ->
  match rest with c :: _ => is_word c = false | [] => True end ->
  plus_loop (rmatch Word) fuel (t ++ rest) caps k = k rest caps.
Proof.
  induction t as [|c t IH]; intros fuel rest caps k Hne Hw Hf Hk Hr;
    [congruence|].
  simpl in Hw. apply andb_true_iff in Hw as [Hc Ht].
  destruct fuel as [|fuel]; [simpl in Hf; lia|].
  rewrite <- app_comm_cons, plus_word_step, Hc.
  destruct t as [|c' t'].
  - simpl app. now rewrite plus_word_stop.
  - rewrite (IH fuel rest caps k); try assumption;
      [|discriminate|simpl in *; lia].
    destruct (k rest caps) eqn:E; [reflexivity|].
    rewrite <- app_comm_cons. apply Hk.
    simpl in Ht. now apply andb_true_iff in Ht as [? _].
Qed.

Lemma plus_word_inv fuel : forall s caps k x,
  plus_loop (rmatch Word) fuel s caps k = Some x ->
  exists t s', s = t ++ s' /\ t <> [] /\ forallb is_word t = true /\
               k s' caps = Some x.
Proof.
  induction fuel as [|fuel IH]; intros s caps k x H; [discriminate|].
  destruct s as [|c s1]; [discriminate|].
  rewrite plus_word_step in H.
  destruct (is_word c) eqn:E; [|discriminate].
  destruct (plus_loop (rmatch Word) fuel s1 caps k) as [y|] eqn:P.
  - injection H as ->. apply IH in P as (t & s' & -> & _ & Ht & H).
    exists (c :: t), s'. simpl. rewrite E, Ht.
    repeat split; auto; discriminate.
  - exists [c], s1. simpl. rewrite E. repeat split; auto; discriminate.
Qed.

Lemma consumed_app (t rest : jsstring) : consumed (t ++ rest) rest = t.
Proof.
  unfold consumed. rewrite length_app.
  replace (List.length t + List.length rest - List.length rest)%nat
    with (List.length t) by lia.
  rewrite firstn_app, Nat.sub_diag, firstn_all. simpl. apply app_nil_r.
Qed.

Lemma group_plus_word t rest caps k :
  t <> [] -> forallb is_word t = true ->
  (forall c s' caps', is_word c = true -> k (c :: s') caps' = None) ->
  match rest with c :: _ => is_word c = false | [] => True end ->
  rmatch (Group (Plus Word)) (t ++ rest) caps k = k rest (caps ++ [t]).
Proof.
  intros Hne Ht Hk Hr.
  change (rmatch (Group (Plus Word)) (t ++ rest) caps k)
    with (plus_loop (rmatch Word) (S (List.length (t ++ rest))) (t ++ rest)
            caps
            (fun s' caps' => k s' (caps' ++ [consumed (t ++ rest) s']))).
  rewrite plus_word; try assumption.
  - now rewrite consumed_app.
  - rewrite length_app. lia.
  - intros c s' caps' Hc. now apply Hk.
Qed.

Lemma group_plus_word_inv s caps k x :
  rmatch (Group (Plus Word)) s caps k = Some x ->
  exists t s', s = t ++ s' /\ t <> [] /\ forallb is_word t = true /\
               k s' (caps ++ [t]) = Some x.
Proof.
  change (rmatch (Group (Plus Word)) s caps k)
    with (plus_loop (rmatch Word) (S (List.length s)) s caps
            (fun s' caps' => k s' (caps' ++ [consumed s s']))).
  intros H. apply plus_word_inv in H as (t & s' & -> & Hne & Ht & H).
  rewrite consumed_app in H. exists t, s'. auto.
Qed.

End Matcher.

(** What the pattern accepts, whatever single character [d] matches between
    afosterri and org: the uids of the shape, with the token as the group. *)
Lemma match_uid_with d ok id caps :
  (forall s cs (k : jsstring -> list jsstring -> option (list jsstring)),
     rmatch d s cs k = one ok s (fun s' => k s' cs)) ->
  match_anchored (uid_with d) id = Some caps <->
  exists t, caps = [t] /\ uid_shape ok id t.
Proof.
  intros Hd. unfold match_anchored, uid_with. split.
  - intros H. rewrite rmatch_seq in H.
    apply repeat_digit_inv in H as (p & s1 & -> & Hp & Hpd & H).
    rewrite rmatch_seq in H. apply rmatch_lit_inv in H as (s2 & -> & H).
    rewrite rmatch_seq in H.
    apply group_plus_word_inv in H as (t & s3 & -> & Hne & Ht & H).
    rewrite rmatch_seq in H. apply rmatch_lit_inv in H as (s4 & -> & H).
    rewrite rmatch_seq in H.
    apply repeat_digit_inv in H as (q & s5 & -> & Hq & Hqd & H).
    apply rmatch_lits_inv in H as (s6 & -> & H).
    rewrite rmatch_seq, Hd in H.
    apply one_some in H as (c & s7 & -> & Hc & H).
    apply rmatch_lits_inv in H as (s8 & -> & H).
    apply rmatch_lit_inv in H as (s9 & -> & H).
    destruct s9; [|discriminate]. injection H as <-.
    exists t. split; [reflexivity|]. exists p, q, c. repeat split; auto.
  - intros (t & -> & p & q & c & -> & Hp & Hpd & Hne & Ht & Hq & Hqd & Hc).
    change (p ++ [45%N] ++ t ++ [45%N] ++ q
              ++ JS.str "@afosterri" ++ [c] ++ JS.str "org")
      with (p ++ 45%N :: t ++ 45%N :: q
              ++ JS.str "@afosterri" ++ c :: JS.str "or" ++ [103%N]).
    rewrite rmatch_seq, <- Hp, repeat_digit by assumption.
    rewrite rmatch_seq, rmatch_lit.
    rewrite rmatch_seq, group_plus_word; try assumption.
    + rewrite rmatch_seq, rmatch_lit.
      rewrite rmatch_seq, <- Hq, repeat_digit by assumption.
      rewrite rmatch_lits, rmatch_seq, Hd. cbn [one]. rewrite Hc.
      rewrite rmatch_lits, rmatch_lit. reflexivity.
    + intros c0 s' caps' Hw. rewrite rmatch_seq.
      apply rmatch_lit_other. intros <-. discriminate.
    + reflexivity.
Qed.

(** The pattern of the source accepts the uids of the shape, with any
    character but a line terminator for the dot ... *)
Lemma match_uid_re id caps :
  match_anchored uid_re id = Some caps <->
  exists t, caps = [t] /\ uid_shape any_character id t.
Proof.
  change uid_re with (uid_with Dot). apply match_uid_with. reflexivity.
Qed.

(** ... and the pattern of the specification those with a dot there. *)
Lemma match_uid_pattern id caps :
  match_anchored uid_pattern id = Some caps <->
  exists t, caps = [t] /\ uid_shape full_stop id t.
Proof.
  change uid_pattern with (uid_with (Lit 46%N)). apply match_uid_with.
  reflexivity.
Qed.

Lemma extractCalciumId_returns id t :
  extractCalciumId id = Ok t <-> uid_shape any_character id t.
Proof.
  unfold extractCalciumId, replace_anchored_by_group1.
  destruct (match_anchored uid_re id) as [caps|] eqn:E.
  - pose proof E as E'. apply match_uid_re in E' as (t0 & -> & Ht0).
    cbn [nth]. split.
    + now intros [= <-].
    + intros Ht. assert (E' : match_anchored uid_re id = Some [t])
        by (apply match_uid_re; eauto).
      congruence.
  - split; [discriminate|].
    intros Ht. assert (E' : match_anchored uid_re id = Some [t])
      by (apply match_uid_re; eauto).
    congruence.
Qed.

Lemma extractCalciumId_throws id :
  (forall t, ~ uid_shape any_character id t) ->
  extractCalciumId id = Throw (JS.str "bad id").
Proof.
  intros H. destruct (extractCalciumId id) as [t|e] eqn:E.
  - apply extractCalciumId_returns in E. now elim (H t).
  - unfold extractCalciumId in E.
    destruct (match_anchored uid_re id); [discriminate|now symmetry].
Qed.

(** [extractCalciumId] returns the token of a uid of the shape and throws
    on every other string. *)
Theorem extractCalciumId_spec id :
  (forall t, extractCalciumId id = Ok t <-> uid_shape any_character id t) /\
  ((forall t, ~ uid_shape any_character id t) ->
   extractCalciumId id = Throw (JS.str "bad id")).
Proof.
  split; [apply extractCalciumId_returns|apply extractCalciumId_throws].
Qed.

(** Every uid of the pattern of the specification is accepted by the
    pattern of the source, with the same token. *)
Lemma uid_pattern_is_accepted id caps :
  match_anchored uid_pattern id = Some caps ->
  match_anchored uid_re id = Some caps.
Proof.
  intros H. apply match_uid_pattern in H as (t & -> & Ht).
  apply match_uid_re. exists t. split; [reflexivity|].
  destruct Ht as (p & q & c & Hid & Hp & Hpd & Hne & Hw & Hq & Hqd & Hc).
  exists p, q, c. repeat split; try assumption.
  unfold full_stop in Hc. apply N.eqb_eq in Hc as <-. reflexivity.
Qed.

(** ** The uid pattern *)

(** C9.  There is a uid whose character at the place of the dot of
    afosterri.org is not a dot, so that it is not of the pattern with the
    fixed domain, and which the pattern of the source accepts:
    [extractCalciumId] returns its middle token and the shape validates the
    record with that token as the import id. *)
Theorem uid_domain_dot_is_wildcard :
  exists (id : jsstring) (c : codeunit),
    nth_error id 34 = Some c /\
    nth_error (JS.str "1234567890-abc123-999999@afosterri.org") 34
    = Some 46%N /\
    c <> 46%N /\
    id = JS.str "1234567890-abc123-999999@afosterri" ++ c :: JS.str "org" /\
    uid_shape any_character id (JS.str "abc123") /\
    (forall t, ~ uid_shape full_stop id t) /\
    match_anchored uid_re id = Some [JS.str "abc123"] /\
    extractCalciumId id = Ok (JS.str "abc123") /\
    validate [ (JS.str "uid", VString id);
               (JS.str "summary", VString (JS.str "Team Meeting"));
               (JS.str "dtstart", Sample.date 2024 1 15) ] shape
    = {| data := Some {| uid := JS.str "abc123";
                         summary := Some (JS.str "Team Meeting");
                         dtstart := {| year := 2024; month := 1; day := 15 |};
                         dtend := None;
                         categories := None;
                         description := None;
                         rrule := None |};
         error := None |}.
Proof.
  exists (JS.str "1234567890-abc123-999999@afosterriXorg"), 88%N.
  assert (E : match_anchored uid_re
                (JS.str "1234567890-abc123-999999@afosterriXorg")
              = Some [JS.str "abc123"]) by (vm_compute; reflexivity).
  split; [reflexivity|]. split; [reflexivity|]. split; [discriminate|].
  split; [reflexivity|]. split; [|split; [|split; [exact E|split]]].
  - apply match_uid_re in E as (t & [= <-] & Ht). exact Ht.
  - intros t Ht.
    assert (P : match_anchored uid_pattern
                  (JS.str "1234567890-abc123-999999@afosterriXorg")
                = Some [t]) by (apply match_uid_pattern; eauto).
    vm_compute in P. discriminate.
  - vm_compute. reflexivity.
  - vm_compute. reflexivity.
Qed.

(** A uid that is not of the shape the source accepts makes the record fail
    validation, with an error on the field uid. *)
Lemma refused_uid_fails_validation obj id :
  JS.get obj (JS.str "uid") = VString id ->
  (forall t, ~ uid_shape any_character id t) ->
  exists errs,
    validate obj shape = {| data := None; error := Some errs |} /\
    In {| Zod.path := [JS.str "uid"]; Zod.message := JS.str "bad id" |} errs.
Proof.
  intros Hget Hre. unfold validate, shape, Zod.object.
  unfold Zod.field at 1. unfold Zod.transform at 1. rewrite Hget.
  cbn [Zod.string].
  rewrite (extractCalciumId_throws id Hre).
  repeat match goal with
  | |- context [Zod.field ?k ?sch obj] =>
      generalize (Zod.field k sch obj); intro
  end.
  repeat match goal with p : Zod.Parsed _ |- _ => destruct p end;
    simpl; eexists; (split; [reflexivity|]);
    repeat (apply in_or_app; left); now left.
Qed.

(** Such a record goes to the unparsed bucket and adds nothing to the
    accepted records. *)
Lemma refused_uid_is_unparsed env dateCutoff l1 c l2 obj id :
  collect (ICAL.getAllProperties c) [] = Ok obj ->
  JS.get obj (JS.str "uid") = VString id ->
  (forall t, ~ uid_shape any_character id t) ->
  exists r r' errs,
    ImportICS env (l1 ++ c :: l2) dateCutoff = Ok r /\
    ImportICS env (l1 ++ l2) dateCutoff = Ok r' /\
    parsed r = parsed r' /\
    In {| number := List.length l1; object := obj; diag_error := Some errs |}
       (unparsed (buckets r)) /\
    In {| Zod.path := [JS.str "uid"]; Zod.message := JS.str "bad id" |} errs.
Proof.
  intros Hc Hget Hre.
  destruct (refused_uid_fails_validation obj id Hget Hre)
    as (errs & Hv & Herr).
  assert (Ho : outcome env dateCutoff c = IsUnparsed obj (Some errs)).
  { unfold outcome. rewrite Hc, Hv. reflexivity. }
  rewrite !ImportICS_outcome. do 2 eexists. exists errs.
  split; [reflexivity|]. split; [reflexivity|]. cbn [parsed buckets].
  split; [apply accepted_skip; now rewrite Ho|].
  split; [|assumption].
  apply In_unparsed_pushed_all. right.
  exists (List.length l1), c, obj, (Some errs).
  split; [apply nth_error_middle|auto].
Qed.

(** C2, at the input where the code departs from it.  The uid of
    [Sample.other_domain] ends in afosterriXorg: it does not match the
    pattern with the fixed domain, yet the run accepts the record, with the
    import id abc123, and the unparsed bucket stays empty. *)
Theorem uid_of_other_domain_is_accepted env :
  match_anchored uid_pattern
    (JS.str "1234567890-abc123-999999@afosterriXorg") = None /\
  match_anchored uid_pattern
    (JS.str "1234567890-abc123-999999@afosterri.org")
  = Some [JS.str "abc123"] /\
  ImportICS env [Sample.other_domain] None
  = Ok {| parsed :=
            [ {| importId := JS.str "abc123";
                 title := Some (JS.str "Team Meeting");
                 event_description := None;
                 cabin := Null;
                 dates := {| start := JS.str "2024-01-15";
                             end_ := JS.str "2024-01-15" |} |} ];
          buckets := {| broken := []; unparsed := [] |};
          rr := [] |}.
Proof.
  split; [vm_compute; reflexivity|]. split; [vm_compute; reflexivity|].
  on_sample_host env. vm_compute. reflexivity.
Qed.

(** ** The scenarios of the specification, run *)

Example reversed_range_is_swapped env :
  exists r,
    ImportICS env [Sample.reversed] None = Ok r /\
    map dates (parsed r)
    = [ {| start := JS.str "2024-01-10"; end_ := JS.str "2024-01-15" |} ].
Proof.
  on_sample_host env. eexists. split; vm_compute; reflexivity.
Qed.

Example foster_and_meeting env :
  exists r,
    ImportICS env
      [ Sample.vevent "1234567890-fos001-999999@afosterri.org" "Family week"
          2024 7 1 [Sample.prop "categories" (VString (JS.str "Foster"))];
        Sample.vevent "1234567890-mtg001-999999@afosterri.org" "Board"
          2024 7 2 [Sample.prop "categories" (VString (JS.str "Meeting"))] ]
      None = Ok r /\
    map cabin (parsed r)
    = [ Val (JS.str "45617389-7678-42bf-bfb4-83304a389dc7"); Null ].
Proof.
  on_sample_host env. eexists. split; vm_compute; reflexivity.
Qed.

Example wrong_domain_suffix_is_unparsed env :
  exists r u,
    ImportICS env
      [ Sample.vevent "1234567890-abc123-999999@example.com" "Team Meeting"
          2024 1 15 [] ] None = Ok r /\
    parsed r = [] /\
    unparsed (buckets r) = [u] /\
    number u = 0%nat /\
    diag_error u
    = Some [ {| Zod.path := [JS.str "uid"];
                Zod.message := JS.str "bad id" |} ].
Proof.
  on_sample_host env. do 2 eexists. repeat split; vm_compute; reflexivity.
Qed.

Example weekly_recurrence_is_unparsed env :
  exists r,
    ImportICS env
      [ Sample.vevent "1234567890-abc123-999999@afosterri.org" "Team Meeting"
          2024 1 15
          [Sample.prop "rrule" (Sample.recur "WEEKLY" (Sample.date 2024 2 1))] ]
      None = Ok r /\
    parsed r = [] /\ map number (unparsed (buckets r)) = [0%nat].
Proof.
  on_sample_host env. eexists. repeat split; vm_compute; reflexivity.
Qed.

Example exdate_is_never_read env :
  exists r,
    ImportICS env
      [ Sample.vevent "1234567890-abc123-999999@afosterri.org" "Team Meeting"
          2024 1 15 [Sample.raising "exdate"] ] None = Ok r /\
    map importId (parsed r) = [JS.str "abc123"] /\
    broken (buckets r) = [].
Proof.
  on_sample_host env. eexists. repeat split; vm_compute; reflexivity.
Qed.

Example cutoff_is_inclusive :
  exists r,
    ImportICS Sample.env
      [ Sample.vevent "1234567890-eve001-999999@afosterri.org" "Last day"
          2024 12 31 [];
        Sample.late ]
      (Some (JS.str "2024-12-31")) = Ok r /\
    map importId (parsed r) = [JS.str "eve001"] /\
    buckets r = {| broken := []; unparsed := [] |}.
Proof. eexists. repeat split; vm_compute; reflexivity. Qed.

Example empty_title_is_undefined env :
  exists r,
    ImportICS env
      [ Sample.vevent "1234567890-abc123-999999@afosterri.org" ""
          2024 1 15 [] ] None = Ok r /\
    map title (parsed r) = [None].
Proof.
  on_sample_host env. eexists. split; vm_compute; reflexivity.
Qed.

(** The calendar of the model, sampled from 1900 to 2100: the date of a day
    number is a date of the calendar and has that day number. *)
Example calendar_round_trip :
  forallb (fun z =>
             let '(y, m, d) := Dayjs.civil_from_days z in
             (Dayjs.days_from_civil y m d =? z)
             && (1 <=? m) && (m <=? 12) && (1 <=? d) && (d <=? 31))
          (map (fun n => 97 * Z.of_nat n - 25567) (seq 0 757))
  = true.
Proof. vm_compute. reflexivity. Qed.

(** ** The pattern matcher, run *)

Example greedy_plus_gives_back :
  match_anchored (Seq (Group (Plus Word)) Word) (JS.str "abc")
  = Some [JS.str "ab"].
Proof. vm_compute. reflexivity. Qed.

Example uid_with_underscore :
  extractCalciumId (JS.str "1754931775-a_B9-515570@afosterri.org")
  = Ok (JS.str "a_B9").
Proof. vm_compute. reflexivity. Qed.

Example uid_with_hyphen_in_token :
  extractCalciumId (JS.str "1234567890-ab-c1-999999@afosterri.org")
  = Throw (JS.str "bad id").
Proof. vm_compute. reflexivity. Qed.

Example uid_with_short_prefix :
  extractCalciumId (JS.str "123456789-abc123-999999@afosterri.org")
  = Throw (JS.str "bad id").
Proof. vm_compute. reflexivity. Qed.

Example uid_with_trailing_newline :
  extractCalciumId
    (JS.str "1234567890-abc123-999999@afosterri.org" ++ [10%N])
  = Throw (JS.str "bad id").
Proof. vm_compute. reflexivity. Qed.

Example uid_with_newline_for_dot :
  extractCalciumId
    (JS.str "1234567890-abc123-999999@afosterri" ++ 10%N :: JS.str "org")
  = Throw (JS.str "bad id").
Proof. vm_compute. reflexivity. Qed.

Example uid_without_digits_is_unparsed :
  exists r errs,
    ImportICS Sample.env [Sample.team_meeting; Sample.no_digits] None = Ok r /\
    map importId (parsed r) = [JS.str "abc123"] /\
    map number (unparsed (buckets r)) = [1%nat] /\
    map diag_error (unparsed (buckets r)) = [Some errs] /\
    In {| Zod.path := [JS.str "uid"]; Zod.message := JS.str "bad id" |} errs.
Proof.
  do 2 eexists. repeat split; try (vm_compute; reflexivity).
  vm_compute. left. reflexivity.
Qed.

(** * More properties *)

(** ** The flat record *)

Lemma get_set o k v k' :
  JS.get (JS.set o k v) k' = if JS.eqb k k' then v else JS.get o k'.
Proof.
  induction o as [|[k0 w] o IH]; simpl; [reflexivity|].
  destruct (JS.eqb k0 k) eqn:E; simpl.
  - apply eqb_eq in E as ->. destruct (JS.eqb k k'); reflexivity.
  - rewrite IH. destruct (JS.eqb k0 k') eqn:E0; [|reflexivity].
    destruct (JS.eqb k k') eqn:E1; [|reflexivity].
    apply eqb_eq in E0, E1. subst. now rewrite eqb_refl in E.
Qed.

Lemma collect_not_written n ps : forall obj obj',
  not_written n ps -> collect ps obj = Ok obj' ->
  JS.get obj' n = JS.get obj n.
Proof.
  induction ps as [|p ps IH]; intros obj obj' Hn H; simpl in H.
  - now injection H as <-.
  - inversion Hn as [|q l Hp Hrest]; subst. unfold is_exdate in Hp.
    destruct (JS.eqb (ICAL.name p) (JS.str "exdate")) eqn:E.
    + now apply IH.
    + destruct Hp as [Hp|Hp]; [discriminate|].
      destruct (ICAL.getValues p) as [vs|e]; [|discriminate].
      rewrite (IH _ _ Hrest H), get_set. now rewrite Hp.
Qed.

Lemma exdate_not_written ps : not_written (JS.str "exdate") ps.
Proof.
  induction ps as [|p ps IH]; constructor; [|assumption].
  unfold is_exdate. destruct (JS.eqb (ICAL.name p) (JS.str "exdate")); auto.
Qed.

(** Extraction succeeds exactly when every property other than the
    exception dates returns its values: an exdate that would throw is never
    read. *)
Theorem collect_succeeds_iff ps obj :
  (exists obj', collect ps obj = Ok obj') <-> Forall readable ps.
Proof.
  revert obj. induction ps as [|p ps IH]; intros obj; simpl.
  - split; [constructor|]. intros _. now exists obj.
  - unfold readable at 1. unfold is_exdate.
    destruct (JS.eqb (ICAL.name p) (JS.str "exdate")) eqn:E.
    + rewrite IH. split.
      * intros H. constructor; [left; exact E|assumption].
      * intros H. now inversion H.
    + destruct (ICAL.getValues p) as [vs|e] eqn:V.
      * rewrite IH. split.
        -- intros H. constructor; [right; eauto|assumption].
        -- intros H. now inversion H.
      * split; [intros [obj' H]; discriminate|].
        intros H. inversion H as [|q l [Hq|[vs Hq]] Hrest]; subst.
        -- unfold is_exdate in Hq. congruence.
        -- congruence.
Qed.

(** The exception dates never reach the flat record, whatever the
    component holds; and a key of the shape that no property read by the
    extraction carries is undefined in it. *)
Theorem unwritten_names_are_undefined ps obj :
  collect ps [] = Ok obj ->
  JS.get obj (JS.str "exdate") = VUndefined /\
  forall n, In n shape_keys -> not_written n ps -> JS.get obj n = VUndefined.
Proof.
  intros H. split.
  - apply (collect_not_written _ ps [] obj (exdate_not_written ps) H).
  - intros n _ Hn. apply (collect_not_written n ps [] obj Hn H).
Qed.

Lemma unwritten_names_witness :
  exists obj,
    collect (ICAL.getAllProperties
               (Sample.vevent "1234567890-abc123-999999@afosterri.org"
                  "Team Meeting" 2024 1 15
                  [Sample.prop "exdate" (Sample.date 2024 1 16)])) [] = Ok obj /\
    JS.get obj (JS.str "exdate") = VUndefined /\
    JS.get obj (JS.str "dtend") = VUndefined.
Proof.
  eexists. split; [reflexivity|].
  destruct (unwritten_names_are_undefined
              (ICAL.getAllProperties
                 (Sample.vevent "1234567890-abc123-999999@afosterri.org"
                    "Team Meeting" 2024 1 15
                    [Sample.prop "exdate" (Sample.date 2024 1 16)]))
              _ eq_refl) as [Hx Hn].
  split; [exact Hx|]. apply Hn.
  - cbn. tauto.
  - repeat (apply Forall_cons;
              [first [left; reflexivity|right; reflexivity]|]).
    apply Forall_nil.
Defined.

(** Of the properties of one name the last one read decides, and of its
    values the first: the flat record holds that value under the name.  The
    name [__proto__], which an assignment treats apart, is left out. *)
Theorem last_property_first_value ps1 p ps2 vs obj0 obj :
  ICAL.name p <> JS.str "__proto__" ->
  collect (ps1 ++ p :: ps2) obj0 = Ok obj ->
  is_exdate p = false ->
  ICAL.getValues p = Ok vs ->
  not_written (ICAL.name p) ps2 ->
  JS.get obj (ICAL.name p) = JS.first vs.
Proof.
  intros _.
  revert obj0. induction ps1 as [|q ps1 IH]; intros obj0 H Hx Hv Hn.
  - simpl in H. unfold is_exdate in Hx. rewrite Hx, Hv in H.
    rewrite (collect_not_written _ _ _ _ Hn H), get_set.
    now rewrite eqb_refl.
  - simpl in H.
    destruct (JS.eqb (ICAL.name q) (JS.str "exdate")); [now apply (IH obj0)|].
    destruct (ICAL.getValues q) as [ws|e]; [|discriminate].
    now apply (IH _ H).
Qed.

Lemma last_property_witness :
  exists obj,
    collect [ Sample.prop "summary" (VString (JS.str "Draft"));
              {| ICAL.name := JS.str "summary";
                 ICAL.getValues := Ok [VString (JS.str "Final");
                                       VString (JS.str "Other")] |};
              Sample.raising "exdate" ] [] = Ok obj /\
    JS.get obj (JS.str "summary") = VString (JS.str "Final").
Proof.
  eexists. split; [reflexivity|].
  refine (last_property_first_value
           [Sample.prop "summary" (VString (JS.str "Draft"))]
           {| ICAL.name := JS.str "summary";
              ICAL.getValues := Ok [VString (JS.str "Final");
                                    VString (JS.str "Other")] |}
           [Sample.raising "exdate"] _ [] _ _ eq_refl eq_refl eq_refl _).
  - discriminate.
  - repeat (apply Forall_cons;
              [first [left; reflexivity|right; reflexivity]|]).
    apply Forall_nil.
Defined.

(** ** The buckets of a run *)

Lemma pushed_all_counts env dateCutoff events : forall i s,
  (List.length (broken (pushed_all env dateCutoff events i s))
   + List.length (unparsed (pushed_all env dateCutoff events i s))
   + List.length (accepted env dateCutoff events)
   + List.length (dropped env dateCutoff events)
   = List.length (broken s) + List.length (unparsed s)
     + List.length events)%nat.
Proof.
  unfold accepted, dropped.
  induction events as [|c rest IH]; intros i s; simpl; [lia|].
  specialize (IH (S i) (pushed (outcome env dateCutoff c) c i s)).
  destruct (outcome env dateCutoff c); simpl in *;
    rewrite ?length_app in *; simpl in *; lia.
Qed.

Lemma past_cutoff_none env e : past_cutoff env None e = false.
Proof. reflexivity. Qed.

Lemma past_cutoff_unreadable env D e :
  D = [] \/ Dayjs.of_string env D = None ->
  past_cutoff env (Some D) e = false.
Proof.
  unfold past_cutoff. intros [->|H]; [reflexivity|].
  destruct (List.length D =? 0)%nat; [reflexivity|].
  rewrite H. unfold Dayjs.isAfter. now destruct e.
Qed.

Lemma outcome_without_cutoff env dateCutoff c :
  (forall e, past_cutoff env dateCutoff e = false) ->
  outcome env dateCutoff c = outcome env None c.
Proof.
  intros H. unfold outcome.
  destruct (collect (ICAL.getAllProperties c) []) as [obj|e]; [|reflexivity].
  destruct (validate obj shape) as [[d|] [errs|]]; simpl; try reflexivity.
  now rewrite H.
Qed.

Lemma outcome_ext env c1 c2 events :
  (forall c, outcome env c1 c = outcome env c2 c) ->
  accepted env c1 events = accepted env c2 events /\
  forall i s, pushed_all env c1 events i s = pushed_all env c2 events i s.
Proof.
  intros H. unfold accepted. split.
  - f_equal. apply map_ext. intros c. now rewrite H.
  - induction events as [|c rest IH]; intros i s; simpl; [reflexivity|].
    now rewrite H, IH.
Qed.

(** Every component is counted once: it is accepted, broken, unparsed or
    dropped for the cutoff; without a cutoff, and with the empty string for
    one, nothing is dropped. *)
Theorem every_component_is_counted env events dateCutoff :
  (exists r,
     ImportICS env events dateCutoff = Ok r /\
     List.length events
     = (List.length (parsed r) + List.length (broken (buckets r))
        + List.length (unparsed (buckets r))
        + List.length (dropped env dateCutoff events))%nat) /\
  dropped env None events = [] /\
  dropped env (Some []) events = [].
Proof.
  split; [|split].
  - rewrite ImportICS_outcome. eexists. split; [reflexivity|].
    cbn [parsed buckets].
    pose proof (pushed_all_counts env dateCutoff events 0
                  {| broken := []; unparsed := [] |}) as H.
    simpl in H. lia.
  - unfold dropped. induction events as [|c rest IH]; [reflexivity|].
    simpl. rewrite IH. unfold outcome.
    destruct (collect (ICAL.getAllProperties c) []); [|reflexivity].
    destruct (validate _ shape) as [[d|] [errs|]]; reflexivity.
  - unfold dropped. induction events as [|c rest IH]; [reflexivity|].
    simpl. rewrite IH. unfold outcome.
    destruct (collect (ICAL.getAllProperties c) []); [|reflexivity].
    destruct (validate _ shape) as [[d|] [errs|]]; reflexivity.
Qed.

(** A cutoff that is the empty string, or that dayjs cannot read as a date,
    filters nothing: the run is the run without a cutoff. *)
Theorem unreadable_cutoff_filters_nothing env events D :
  D = [] \/ Dayjs.of_string env D = None ->
  ImportICS env events (Some D) = ImportICS env events None.
Proof.
  intros H. rewrite !ImportICS_outcome.
  destruct (outcome_ext env (Some D) None events) as [Ha Hp].
  { intros c. apply outcome_without_cutoff. intros e.
    now apply past_cutoff_unreadable. }
  now rewrite Ha, Hp.
Qed.

Lemma unreadable_cutoff_witness :
  ImportICS Sample.env [Sample.team_meeting; Sample.late]
    (Some (JS.str "next year"))
  = ImportICS Sample.env [Sample.team_meeting; Sample.late] None.
Proof.
  apply unreadable_cutoff_filters_nothing. right. reflexivity.
Defined.

Lemma pushed_ignores_cutoff env c1 c2 c i s :
  pushed (outcome env c1 c) c i s = pushed (outcome env c2 c) c i s.
Proof.
  unfold outcome.
  destruct (collect (ICAL.getAllProperties c) []) as [obj|e]; [|reflexivity].
  destruct (validate obj shape) as [[d|] [errs|]]; simpl; try reflexivity.
  destruct (past_cutoff env c1 _), (past_cutoff env c2 _); reflexivity.
Qed.

(** The cutoff has no part in the diagnostics: two runs over the same
    components have the same broken and unparsed buckets, whatever their
    cutoffs. *)
Theorem diagnostics_ignore_cutoff env events cutoff1 cutoff2 :
  exists r1 r2,
    ImportICS env events cutoff1 = Ok r1 /\
    ImportICS env events cutoff2 = Ok r2 /\
    buckets r1 = buckets r2.
Proof.
  rewrite !ImportICS_outcome. do 2 eexists.
  split; [reflexivity|]. split; [reflexivity|]. cbn [buckets].
  generalize 0%nat, {| broken := []; unparsed := [] |}.
  induction events as [|c rest IH]; intros i s; simpl; [reflexivity|].
  rewrite (pushed_ignores_cutoff env cutoff1 cutoff2). apply IH.
Qed.

Lemma outcome_broken env dateCutoff c e :
  outcome env dateCutoff c = IsBroken e <->
  collect (ICAL.getAllProperties c) [] = Throw e.
Proof.
  unfold outcome.
  destruct (collect (ICAL.getAllProperties c) []) as [obj|e'].
  - split; [|discriminate].
    destruct (validate obj shape) as [[d|] [errs|]]; simpl; try discriminate.
    destruct (past_cutoff _ _ _); discriminate.
  - split; congruence.
Qed.

Lemma outcome_unparsed env dateCutoff c obj err :
  outcome env dateCutoff c = IsUnparsed obj err ->
  collect (ICAL.getAllProperties c) [] = Ok obj /\
  exists errs, shape (VObject obj) = Zod.Invalid errs /\ err = Some errs.
Proof.
  unfold outcome, validate.
  destruct (collect (ICAL.getAllProperties c) []) as [obj'|e];
    [|discriminate].
  destruct (shape (VObject obj')) as [d|errs] eqn:S; simpl.
  - destruct (past_cutoff _ _ _); discriminate.
  - intros [= <- <-]. split; [reflexivity|]. now exists errs.
Qed.

(** Every diagnostic stands for the component at its index: a broken one
    holds the properties of that component and the error its extraction
    threw, an unparsed one the flat record of that component, which the
    shape refuses; and no index is in both buckets. *)
Theorem diagnostics_stand_for_components env events dateCutoff :
  exists r,
    ImportICS env events dateCutoff = Ok r /\
    (forall d, In d (broken (buckets r)) ->
       exists c,
         nth_error events (number d) = Some c /\
         object d = ICAL.getAllProperties c /\
         collect (ICAL.getAllProperties c) [] = Throw (diag_error d)) /\
    (forall u, In u (unparsed (buckets r)) ->
       exists c errs,
         nth_error events (number u) = Some c /\
         collect (ICAL.getAllProperties c) [] = Ok (object u) /\
         shape (VObject (object u)) = Zod.Invalid errs /\
         diag_error u = Some errs) /\
    (forall d u, In d (broken (buckets r)) -> In u (unparsed (buckets r)) ->
       number d <> number u).
Proof.
  rewrite ImportICS_outcome. eexists. split; [reflexivity|].
  cbn [buckets]. split; [|split].
  - intros d Hd. apply In_broken_pushed_all in Hd.
    destruct Hd as [[]|(j & c & e & Hj & Ho & ->)].
    exists c. cbn [number object diag_error]. simpl.
    split; [assumption|]. split; [reflexivity|].
    now apply (outcome_broken env dateCutoff).
  - intros u Hu. apply In_unparsed_pushed_all in Hu.
    destruct Hu as [[]|(j & c & obj & err & Hj & Ho & ->)].
    apply outcome_unparsed in Ho as (Hc & errs & Hs & ->).
    exists c, errs. cbn [number object diag_error]. simpl. auto.
  - intros d u Hd Hu E.
    apply In_broken_pushed_all in Hd.
    destruct Hd as [[]|(j & c & e & Hj & Ho & ->)].
    apply In_unparsed_pushed_all in Hu.
    destruct Hu as [[]|(j' & c' & obj & err & Hj' & Ho' & ->)].
    cbn [number] in E. simpl in E. subst j'.
    rewrite Hj in Hj'. injection Hj' as <-. congruence.
Qed.

Lemma StronglySorted_snoc (l : list nat) x :
  StronglySorted lt l -> Forall (fun y => (y < x)%nat) l ->
  StronglySorted lt (l ++ [x]).
Proof.
  induction l as [|a l IH]; intros Hs Hf; simpl.
  - repeat constructor.
  - inversion Hs as [|a' l' Hl Ha]; subst.
    inversion Hf as [|a' l' Hax Hlx]; subst.
    constructor; [now apply IH|].
    apply Forall_app. split; [assumption|]. now constructor.
Qed.

Lemma pushed_all_sorted env dateCutoff events : forall i s,
  StronglySorted lt (map number (broken s)) ->
  StronglySorted lt (map number (unparsed s)) ->
  Forall (fun n => (n < i)%nat) (map number (broken s)) ->
  Forall (fun n => (n < i)%nat) (map number (unparsed s)) ->
  let s' := pushed_all env dateCutoff events i s in
  StronglySorted lt (map number (broken s')) /\
  StronglySorted lt (map number (unparsed s')) /\
  Forall (fun n => (n < i + List.length events)%nat)
    (map number (broken s')) /\
  Forall (fun n => (n < i + List.length events)%nat)
    (map number (unparsed s')).
Proof.
  induction events as [|c rest IH]; intros i s Hb Hu Fb Fu; simpl.
  - rewrite Nat.add_0_r. auto.
  - replace (i + S (List.length rest))%nat
      with (S i + List.length rest)%nat by lia.
    assert (W : forall l, Forall (fun n => (n < i)%nat) l ->
                          Forall (fun n => (n < S i)%nat) l).
    { intros l H. eapply Forall_impl; [|exact H]. simpl. lia. }
    apply IH; destruct (outcome env dateCutoff c); simpl;
      rewrite ?map_app; simpl; auto using StronglySorted_snoc;
      apply Forall_app; split; auto.
Qed.

(** The diagnostics keep the order of the components: in each bucket the
    indices strictly increase, so none comes twice, and every index is below
    the number of components. *)
Theorem diagnostics_in_source_order env events dateCutoff :
  exists r,
    ImportICS env events dateCutoff = Ok r /\
    StronglySorted lt (map number (broken (buckets r))) /\
    StronglySorted lt (map number (unparsed (buckets r))) /\
    Forall (fun n => (n < List.length events)%nat)
      (map number (broken (buckets r))) /\
    Forall (fun n => (n < List.length events)%nat)
      (map number (unparsed (buckets r))).
Proof.
  rewrite ImportICS_outcome. eexists. split; [reflexivity|].
  cbn [buckets].
  apply (pushed_all_sorted env dateCutoff events 0
           {| broken := []; unparsed := [] |}); constructor.
Qed.

(** ** The cutoff, from one date to a later one *)

Lemma Subsequence_refl {A} (l : list A) : Subsequence l l.
Proof. induction l; constructor; assumption. Qed.

Lemma accepted_subsequence env c1 c2 events :
  (forall c ev, outcome env c1 c = IsAccepted ev ->
                outcome env c2 c = IsAccepted ev) ->
  Subsequence (accepted env c1 events) (accepted env c2 events).
Proof.
  intros H. unfold accepted.
  induction events as [|c rest IH]; simpl; [constructor|].
  destruct (outcome env c1 c) as [e|obj err| |ev] eqn:E; simpl.
  1-3: destruct (returned (outcome env c2 c)); [constructor|]; assumption.
  rewrite (H c ev E). simpl. now constructor.
Qed.

(** A cutoff only removes records: what a run with a cutoff accepts is what
    the run without one accepts, with some records left out and the others
    in their order. *)
Theorem cutoff_only_removes env events D :
  exists r r0,
    ImportICS env events (Some D) = Ok r /\
    ImportICS env events None = Ok r0 /\
    Subsequence (parsed r) (parsed r0).
Proof.
  rewrite !ImportICS_outcome. do 2 eexists.
  split; [reflexivity|]. split; [reflexivity|]. cbn [parsed].
  apply accepted_subsequence. intros c ev Ho.
  apply outcome_accepted in Ho as (obj & d & Hv & _ & ->).
  apply outcome_accepted. exists obj, d. auto.
Qed.

(** Of two cutoffs that dayjs reads, the later one accepts whatever the
    earlier one accepts. *)
Theorem later_cutoff_accepts_more env events D1 D2 t1 t2 :
  D1 <> [] ->
  Dayjs.of_string env D1 = Some t1 ->
  Dayjs.of_string env D2 = Some t2 ->
  t1 <= t2 ->
  exists r1 r2,
    ImportICS env events (Some D1) = Ok r1 /\
    ImportICS env events (Some D2) = Ok r2 /\
    Subsequence (parsed r1) (parsed r2).
Proof.
  intros HD H1 H2 Ht. rewrite !ImportICS_outcome. do 2 eexists.
  split; [reflexivity|]. split; [reflexivity|]. cbn [parsed].
  apply accepted_subsequence. intros c ev Ho.
  apply outcome_accepted in Ho as (obj & d & Hv & Hc & ->).
  apply outcome_accepted. exists obj, d.
  split; [assumption|]. split; [|reflexivity].
  rewrite past_cutoff_supplied in Hc by assumption.
  unfold past_cutoff. destruct (List.length D2 =? 0)%nat; [reflexivity|].
  rewrite H1 in Hc. rewrite H2.
  destruct (snd (ordered_dates env d)) as [te|]; [|reflexivity].
  simpl in *. apply Z.ltb_ge in Hc. apply Z.ltb_ge. lia.
Qed.

Lemma later_cutoff_witness :
  exists r1 r2,
    ImportICS Sample.env [Sample.team_meeting; Sample.late]
      (Some (JS.str "2024-06-30")) = Ok r1 /\
    ImportICS Sample.env [Sample.team_meeting; Sample.late]
      (Some (JS.str "2025-06-30")) = Ok r2 /\
    Subsequence (parsed r1) (parsed r2).
Proof.
  apply (later_cutoff_accepts_more Sample.env
           [Sample.team_meeting; Sample.late]
           (JS.str "2024-06-30") (JS.str "2025-06-30")
           1719705600000 1751241600000).
  - discriminate.
  - reflexivity.
  - reflexivity.
  - lia.
Defined.

(** ** Dates that are dates of the calendar *)








(** The first and the last day of [Date], 100,000,000 days either way of
    the epoch in UTC; where local time is behind UTC the last local
    midnight is a day earlier. *)
Example days_at_the_ends_of_Date :
  parseFormatDate Sample.greenwich {| year := 275760; month := 9; day := 13 |}
  = JS.str "275760-09-13" /\
  parseFormatDate Sample.greenwich {| year := 275760; month := 9; day := 14 |}
  = JS.str "Invalid Date" /\
  parseFormatDate Sample.env {| year := 275760; month := 9; day := 12 |}
  = JS.str "275760-09-12" /\
  parseFormatDate Sample.env {| year := 275760; month := 9; day := 13 |}
  = JS.str "Invalid Date" /\
  parseFormatDate Sample.greenwich {| year := -271821; month := 4; day := 20 |}
  = JS.str "-271821-04-20" /\
  parseFormatDate Sample.greenwich {| year := -271821; month := 4; day := 19 |}
  = JS.str "Invalid Date".
Proof. repeat split; vm_compute; reflexivity. Qed.

(** ** The range of one day, and the swap *)

Lemma isBefore_irrefl x : Dayjs.isBefore x x = false.
Proof. destruct x as [t|]; simpl; [apply Z.ltb_irrefl|reflexivity]. Qed.

(** An event without a recurrence is an event of one day: its range starts
    and ends at [dtstart], and the record has the same text for both. *)
Theorem single_day_range env d :
  rrule d = None ->
  ordered_dates env d = (parseDate env (dtstart d), parseDate env (dtstart d))
  /\ start (dates (make_event d (ordered_dates env d)))
     = end_ (dates (make_event d (ordered_dates env d))).
Proof.
  intros H.
  assert (E : ordered_dates env d
              = (parseDate env (dtstart d), parseDate env (dtstart d))).
  { unfold ordered_dates. rewrite H. cbn [fst snd].
    now rewrite isBefore_irrefl. }
  split; [exact E|]. rewrite E. unfold make_event.
  cbn [dates start end_ fst snd]. reflexivity.
Qed.

Lemma single_day_witness :
  ordered_dates Sample.env
    {| uid := JS.str "abc123"; summary := None;
       dtstart := {| year := 2024; month := 1; day := 15 |};
       dtend := None; categories := None; description := None;
       rrule := None |}
  = (Some 1705276800000, Some 1705276800000).
Proof.
  destruct (single_day_range Sample.env
              {| uid := JS.str "abc123"; summary := None;
                 dtstart := {| year := 2024; month := 1; day := 15 |};
                 dtend := None; categories := None; description := None;
                 rrule := None |} eq_refl) as [H _].
  exact H.
Defined.

(** The swap is a straight one: an event from [a] until [b] and an event
    from [b] until [a] have the same range, when [a] and [b] are valid
    dates. *)
Theorem range_is_symmetric env d1 d2 :
  rrule d1 = Some {| until := dtstart d2 |} ->
  rrule d2 = Some {| until := dtstart d1 |} ->
  parseDate env (dtstart d1) <> None ->
  parseDate env (dtstart d2) <> None ->
  ordered_dates env d1 = ordered_dates env d2.
Proof.
  intros H1 H2 V1 V2. unfold ordered_dates. rewrite H1, H2.
  cbn [until fst snd].
  destruct (parseDate env (dtstart d1)) as [a|]; [|contradiction].
  destruct (parseDate env (dtstart d2)) as [b|]; [|contradiction].
  cbn [Dayjs.isBefore].
  destruct (Z.ltb_spec b a), (Z.ltb_spec a b); try reflexivity; try lia.
  assert (a = b) by lia. now subst.
Qed.

Lemma range_symmetric_witness :
  ordered_dates Sample.env
    {| uid := []; summary := None;
       dtstart := {| year := 2024; month := 1; day := 15 |};
       dtend := None; categories := None; description := None;
       rrule := Some {| until := {| year := 2024; month := 1; day := 10 |} |} |}
  = ordered_dates Sample.env
      {| uid := []; summary := None;
         dtstart := {| year := 2024; month := 1; day := 10 |};
         dtend := None; categories := None; description := None;
         rrule := Some {| until := {| year := 2024; month := 1; day := 15 |} |} |}.
Proof.
  apply range_is_symmetric; try reflexivity; discriminate.
Defined.

(** A boundary that is no date is never swapped: the two events then have
    different ranges. *)
Example invalid_boundary_is_not_swapped :
  ordered_dates Sample.env
    {| uid := []; summary := None;
       dtstart := {| year := 275760; month := 9; day := 14 |};
       dtend := None; categories := None; description := None;
       rrule := Some {| until := {| year := 2024; month := 1; day := 15 |} |} |}
  = (None, Some 1705276800000) /\
  ordered_dates Sample.env
    {| uid := []; summary := None;
       dtstart := {| year := 2024; month := 1; day := 15 |};
       dtend := None; categories := None; description := None;
       rrule := Some {| until := {| year := 275760; month := 9;
                                    day := 14 |} |} |}
  = (Some 1705276800000, None).
Proof. split; vm_compute; reflexivity. Qed.

(** ** The text repair, applied again *)

Lemma replace_artifact_nonempty s : s <> [] -> replace_artifact s <> [].
Proof. destruct s; [congruence|discriminate]. Qed.

Lemma replace_artifact_clean_id s :
  ~ In REPLACEMENT_CHARACTER s -> replace_artifact s = s.
Proof.
  induction s as [|c s IH]; intros H; simpl; [reflexivity|].
  destruct (c =? REPLACEMENT_CHARACTER)%N eqn:E.
  - apply N.eqb_eq in E. elim H. now left.
  - rewrite IH; [reflexivity|]. intros Hin. apply H. now right.
Qed.

(** The repair never returns the empty string, leaves a text without the
    artifact as it is, and repairs nothing more when applied again. *)
Theorem fixApostrophe_settles :
  (forall s, fixApostrophe s <> Some []) /\
  (forall s, s <> [] -> ~ In REPLACEMENT_CHARACTER s ->
             fixApostrophe (Some s) = Some s) /\
  (forall s, fixApostrophe (fixApostrophe s) = fixApostrophe s).
Proof.
  split; [|split].
  - intros [s|]; [|discriminate]. unfold fixApostrophe.
    destruct s as [|c s]; [discriminate|]. simpl. discriminate.
  - intros s Hs Hc. unfold fixApostrophe.
    destruct s as [|c s]; [congruence|].
    cbn [List.length Nat.eqb]. now rewrite replace_artifact_clean_id.
  - intros [s|]; [|reflexivity]. unfold fixApostrophe at 2.
    destruct s as [|c s]; [reflexivity|]. cbn [List.length Nat.eqb].
    unfold fixApostrophe.
    destruct (replace_artifact (c :: s)) as [|c' s'] eqn:E.
    + discriminate.
    + cbn [List.length Nat.eqb]. rewrite <- E.
      now rewrite (replace_artifact_clean_id _ (replace_artifact_clean _)).
Qed.

(** ** The import id *)

Lemma word_has_no_hyphen t : forallb is_word t = true -> ~ In 45%N t.
Proof.
  intros H Hin. rewrite forallb_forall in H. specialize (H _ Hin).
  discriminate.
Qed.

(** The import id is never empty and is made of word characters; it is the
    uid less the 32 characters around the token; and it is not itself a uid:
    [extractCalciumId] throws on it. *)
Theorem import_id_is_a_bare_token id t :
  extractCalciumId id = Ok t ->
  t <> [] /\
  forallb is_word t = true /\
  List.length id = (List.length t + 32)%nat /\
  extractCalciumId t = Throw (JS.str "bad id").
Proof.
  intros H. apply extractCalciumId_returns in H.
  destruct H as (p & q & c & -> & Hp & Hpd & Hne & Hw & Hq & Hqd & Hc).
  split; [assumption|]. split; [assumption|]. split.
  - rewrite !length_app, Hp, Hq. simpl. lia.
  - apply extractCalciumId_throws. intros t' (p' & q' & c' & E & _).
    apply (word_has_no_hyphen t Hw). rewrite E.
    apply in_or_app. right. now left.
Qed.

Lemma import_id_witness :
  JS.str "abc123" <> [] /\
  forallb is_word (JS.str "abc123") = true /\
  List.length (JS.str "1234567890-abc123-999999@afosterri.org")
  = (List.length (JS.str "abc123") + 32)%nat /\
  extractCalciumId (JS.str "abc123") = Throw (JS.str "bad id").
Proof.
  apply (import_id_is_a_bare_token
           (JS.str "1234567890-abc123-999999@afosterri.org")).
  vm_compute. reflexivity.
Defined.

(** ** The uid, before the check and after *)

Lemma previous_match id caps :
  match_anchored Previous.uid_re id = Some caps ->
  exists t, caps = [t] /\ uid_shape any_character id t.
Proof.
  unfold match_anchored, Previous.uid_re. intros H.
  apply rmatch_lits_inv in H as (s1 & -> & H).
  rewrite rmatch_seq in H.
  apply group_plus_word_inv in H as (t & s2 & -> & Hne & Ht & H).
  apply rmatch_lits_inv in H as (s3 & -> & H).
  rewrite rmatch_seq in H. cbn [rmatch] in H.
  apply one_some in H as (c & s4 & -> & Hc & H).
  apply rmatch_lits_inv in H as (s5 & -> & H).
  apply rmatch_lit_inv in H as (s6 & -> & H).
  destruct s6; [|discriminate]. injection H as <-.
  exists t. split; [reflexivity|].
  exists (JS.str "1754931775"), (JS.str "515570"), c.
  repeat split; auto.
Qed.

(** The earlier [extractCalciumId] never throws: it returns the uid as it
    is, or else the very token that the present one returns.  So a uid that
    the present one refuses went through unchanged. *)
Theorem previous_extractCalciumId id :
  (Previous.extractCalciumId id = id \/
   extractCalciumId id = Ok (Previous.extractCalciumId id)) /\
  (extractCalciumId id = Throw (JS.str "bad id") ->
   Previous.extractCalciumId id = id).
Proof.
  assert (H : Previous.extractCalciumId id = id \/
              extractCalciumId id = Ok (Previous.extractCalciumId id)).
  { unfold Previous.extractCalciumId, replace_anchored_by_group1.
    destruct (match_anchored Previous.uid_re id) as [caps|] eqn:E;
      [|now left].
    right. apply previous_match in E as (t & -> & Ht).
    cbn [nth]. now apply extractCalciumId_returns. }
  split; [exact H|].
  intros E. destruct H as [H|H]; [exact H|congruence].
Qed.

(** ** The shape, field by field *)

(** The shape accepts a record exactly when it accepts each of its seven
    fields, and the normalized record holds what the fields gave. *)
Lemma shape_valid o d :
  shape (VObject o) = Zod.Valid d <->
  Zod.field "uid" (Zod.transform Zod.string extractCalciumId) o
    = Zod.Valid (uid d) /\
  Zod.field "summary"
    (Zod.transform Zod.string (fun s => Ok (fixApostrophe (Some s)))) o
    = Zod.Valid (summary d) /\
  Zod.field "dtstart" dateShape o = Zod.Valid (dtstart d) /\
  Zod.field "dtend" (Zod.optional dateShape) o = Zod.Valid (dtend d) /\
  Zod.field "categories" (Zod.optional cabinShape) o
    = Zod.Valid (categories d) /\
  Zod.field "description"
    (Zod.transform (Zod.optional Zod.string) (fun s => Ok (fixApostrophe s)))
    o = Zod.Valid (description d) /\
  Zod.field "rrule" (Zod.optional rruleShape) o = Zod.Valid (rrule d).
Proof.
  unfold shape, Zod.object.
  repeat match goal with
  | |- context [Zod.field ?k ?sch o] =>
      generalize (Zod.field k sch o); intro
  end.
  destruct d.
  repeat match goal with p : Zod.Parsed _ |- _ => destruct p end;
    cbn [Zod.ap uid summary dtstart dtend categories description rrule];
    (split; [intros H; try discriminate; injection H as <- <- <- <- <- <- <-;
             repeat split
            |intros (H1 & H2 & H3 & H4 & H5 & H6 & H7);
             try discriminate; congruence]).
Qed.

Lemma field_valid {A} key (sch : Zod.Schema A) o a :
  Zod.field key sch o = Zod.Valid a <->
  sch (JS.get o (JS.str key)) = Zod.Valid a.
Proof.
  unfold Zod.field. destruct (sch (JS.get o (JS.str key))); split;
    congruence.
Qed.

Lemma shape_refuses o :
  (forall d, shape (VObject o) <> Zod.Valid d) ->
  exists errs, shape (VObject o) = Zod.Invalid errs.
Proof.
  intros H. destruct (shape (VObject o)) as [d|errs] eqn:E.
  - now elim (H d).
  - now exists errs.
Qed.

Lemma dateShape_valid v dt :
  dateShape v = Zod.Valid dt ->
  exists fields,
    v = VObject fields /\
    JS.get fields (JS.str "isDate") = VBool true /\
    JS.get fields (JS.str "year") = VNumber (year dt) /\
    JS.get fields (JS.str "month") = VNumber (month dt) /\
    JS.get fields (JS.str "day") = VNumber (day dt).
Proof.
  unfold dateShape, Zod.object.
  destruct v as [| | | | |fields]; try discriminate.
  unfold Zod.field, Zod.literal_true, Zod.number.
  destruct (JS.get fields (JS.str "isDate")) as [| |[|]| | |] eqn:E1;
    destruct (JS.get fields (JS.str "year")) eqn:E2;
    destruct (JS.get fields (JS.str "month")) eqn:E3;
    destruct (JS.get fields (JS.str "day")) eqn:E4;
    cbn [Zod.ap map]; try discriminate.
  intros [= <-]. exists fields. cbn [year month day]. auto.
Qed.

(** A recurrence is accepted only when its frequency is DAILY and its
    [until] is a date: any other recurrence makes the shape refuse the
    record. *)
Theorem only_daily_recurrences o ro :
  JS.get o (JS.str "rrule") = VObject ro ->
  (forall d, shape (VObject o) = Zod.Valid d ->
     JS.get ro (JS.str "freq") = VString (JS.str "DAILY") /\
     exists u, rrule d = Some {| until := u |} /\
               dateShape (JS.get ro (JS.str "until")) = Zod.Valid u) /\
  (JS.get ro (JS.str "freq") <> VString (JS.str "DAILY") ->
   exists errs, shape (VObject o) = Zod.Invalid errs).
Proof.
  intros Hr.
  assert (A : forall d, shape (VObject o) = Zod.Valid d ->
     JS.get ro (JS.str "freq") = VString (JS.str "DAILY") /\
     exists u, rrule d = Some {| until := u |} /\
               dateShape (JS.get ro (JS.str "until")) = Zod.Valid u).
  { intros d H. apply shape_valid in H as (_ & _ & _ & _ & _ & _ & H).
    apply field_valid in H. rewrite Hr in H.
    unfold Zod.optional, rruleShape, Zod.object in H.
    unfold Zod.field at 1 in H. unfold Zod.literals in H.
    destruct (JS.get ro (JS.str "freq")) as [| | | |s|] eqn:F;
      try (destruct (Zod.field "until" dateShape ro); discriminate).
    cbn [existsb orb] in H.
    destruct (JS.eqb s (JS.str "DAILY")) eqn:E;
      [|destruct (Zod.field "until" dateShape ro); discriminate].
    apply eqb_eq in E as ->. split; [reflexivity|].
    destruct (Zod.field "until" dateShape ro) as [u|errs] eqn:U;
      [|discriminate].
    cbn [Zod.ap orb] in H. injection H as <-.
    exists u. split; [reflexivity|]. now apply field_valid in U. }
  split; [exact A|].
  intros Hf. apply shape_refuses. intros d H.
  apply A in H as [H _]. contradiction.
Qed.

Lemma only_daily_witness :
  exists errs,
    shape (VObject
             [ (JS.str "uid",
                VString (JS.str "1234567890-abc123-999999@afosterri.org"));
               (JS.str "summary", VString (JS.str "Team Meeting"));
               (JS.str "dtstart", Sample.date 2024 1 15);
               (JS.str "rrule",
                Sample.recur "WEEKLY" (Sample.date 2024 2 1)) ])
    = Zod.Invalid errs.
Proof.
  apply (proj2 (only_daily_recurrences
            [ (JS.str "uid",
               VString (JS.str "1234567890-abc123-999999@afosterri.org"));
              (JS.str "summary", VString (JS.str "Team Meeting"));
              (JS.str "dtstart", Sample.date 2024 1 15);
              (JS.str "rrule",
               Sample.recur "WEEKLY" (Sample.date 2024 2 1)) ]
            [ (JS.str "freq", VString (JS.str "WEEKLY"));
              (JS.str "until", Sample.date 2024 2 1) ] eq_refl)).
  discriminate.
Defined.

Lemma optional_valid {A} (sch : Zod.Schema A) v a :
  Zod.optional sch v = Zod.Valid a ->
  (v = VUndefined /\ a = None) \/
  (v <> VUndefined /\ exists x, a = Some x /\ sch v = Zod.Valid x).
Proof.
  unfold Zod.optional. destruct v; try (intros [= <-]; now left);
    (destruct (sch _) as [x|errs] eqn:E; [|discriminate]);
    intros [= <-]; right; (split; [discriminate|]); exists x; auto.
Qed.

Lemma shape_categories o d :
  shape (VObject o) = Zod.Valid d ->
  (JS.get o (JS.str "categories") = VUndefined /\ categories d = None) \/
  exists label,
    JS.get o (JS.str "categories") = VString label /\
    categories d = Some label /\ In label cabins.
Proof.
  intros H. apply shape_valid in H as (_ & _ & _ & _ & H & _).
  apply field_valid, optional_valid in H.
  destruct H as [[Hu Hn]|(_ & l & Hl & H)]; [now left|right].
  unfold cabinShape, Zod.literals in H.
  destruct (JS.get o (JS.str "categories")) as [| | | |s|];
    try discriminate.
  destruct (existsb (JS.eqb s) cabins) eqn:E; [|discriminate].
  injection H as <-. exists s. split; [reflexivity|]. split; [exact Hl|].
  apply existsb_exists in E as (x & Hx & E).
  apply eqb_eq in E as ->. exact Hx.
Qed.

(** The category of an accepted record is absent or one of the six labels
    of [cabinMap]; any other value of the property makes the shape refuse
    the record. *)
Theorem category_is_one_of_six o :
  (forall d, shape (VObject o) = Zod.Valid d ->
     (JS.get o (JS.str "categories") = VUndefined /\ categories d = None) \/
     exists label,
       JS.get o (JS.str "categories") = VString label /\
       categories d = Some label /\ In label cabins) /\
  (JS.get o (JS.str "categories") <> VUndefined ->
   (forall label, In label cabins ->
                  JS.get o (JS.str "categories") <> VString label) ->
   exists errs, shape (VObject o) = Zod.Invalid errs).
Proof.
  split; [intros d; apply shape_categories|].
  intros Hu Hl. apply shape_refuses. intros d H.
  destruct (shape_categories o d H) as [[E _]|(l & E & _ & Hin)];
    [contradiction|].
  now apply (Hl l Hin).
Qed.

(** The end date of the feed is checked and then left aside: a [dtend]
    that is there and is not a date makes the shape refuse the record ... *)
Theorem dtend_is_checked o fields :
  JS.get o (JS.str "dtend") = VObject fields ->
  JS.get fields (JS.str "isDate") <> VBool true ->
  exists errs, shape (VObject o) = Zod.Invalid errs.
Proof.
  intros Hd Hf. apply shape_refuses. intros d H.
  apply shape_valid in H as (_ & _ & _ & H & _).
  apply field_valid, optional_valid in H. rewrite Hd in H.
  destruct H as [[H _]|(_ & x & _ & H)]; [discriminate|].
  apply dateShape_valid in H as (f & [= <-] & H & _). contradiction.
Qed.

Lemma dtend_is_checked_witness :
  exists errs,
    shape (VObject
             [ (JS.str "uid",
                VString (JS.str "1234567890-abc123-999999@afosterri.org"));
               (JS.str "summary", VString (JS.str "Team Meeting"));
               (JS.str "dtstart", Sample.date 2024 1 15);
               (JS.str "dtend",
                VObject [ (JS.str "isDate", VBool false);
                          (JS.str "year", VNumber 2024);
                          (JS.str "month", VNumber 1);
                          (JS.str "day", VNumber 16) ]) ])
    = Zod.Invalid errs.
Proof.
  apply (dtend_is_checked
           [ (JS.str "uid",
              VString (JS.str "1234567890-abc123-999999@afosterri.org"));
             (JS.str "summary", VString (JS.str "Team Meeting"));
             (JS.str "dtstart", Sample.date 2024 1 15);
             (JS.str "dtend",
              VObject [ (JS.str "isDate", VBool false);
                        (JS.str "year", VNumber 2024);
                        (JS.str "month", VNumber 1);
                        (JS.str "day", VNumber 16) ]) ]
           [ (JS.str "isDate", VBool false);
             (JS.str "year", VNumber 2024);
             (JS.str "month", VNumber 1);
             (JS.str "day", VNumber 16) ] eq_refl).
  discriminate.
Defined.

Lemma field_same {A} key (sch : Zod.Schema A) o1 o2 :
  JS.get o1 (JS.str key) = JS.get o2 (JS.str key) ->
  Zod.field key sch o1 = Zod.field key sch o2.
Proof. unfold Zod.field. now intros ->. Qed.

(** ... and a [dtend] that is accepted changes nothing: two records that
    differ in it alone give the same event, kept or dropped alike. *)
Theorem dtend_is_unused env dateCutoff o1 o2 d1 d2 :
  shape (VObject o1) = Zod.Valid d1 ->
  shape (VObject o2) = Zod.Valid d2 ->
  (forall k, k <> JS.str "dtend" -> JS.get o1 k = JS.get o2 k) ->
  make_event d1 (ordered_dates env d1) = make_event d2 (ordered_dates env d2)
  /\ past_cutoff env dateCutoff (snd (ordered_dates env d1))
     = past_cutoff env dateCutoff (snd (ordered_dates env d2)).
Proof.
  intros H1 H2 Hk.
  apply shape_valid in H1 as (A1 & A2 & A3 & _ & A5 & A6 & A7).
  apply shape_valid in H2 as (B1 & B2 & B3 & _ & B5 & B6 & B7).
  rewrite (field_same "uid" _ o1 o2) in A1
    by (apply Hk; intros E; vm_compute in E; discriminate).
  rewrite (field_same "summary" _ o1 o2) in A2
    by (apply Hk; intros E; vm_compute in E; discriminate).
  rewrite (field_same "dtstart" _ o1 o2) in A3
    by (apply Hk; intros E; vm_compute in E; discriminate).
  rewrite (field_same "categories" _ o1 o2) in A5
    by (apply Hk; intros E; vm_compute in E; discriminate).
  rewrite (field_same "description" _ o1 o2) in A6
    by (apply Hk; intros E; vm_compute in E; discriminate).
  rewrite (field_same "rrule" _ o1 o2) in A7
    by (apply Hk; intros E; vm_compute in E; discriminate).
  rewrite A1 in B1. rewrite A2 in B2. rewrite A3 in B3.
  rewrite A5 in B5. rewrite A6 in B6. rewrite A7 in B7.
  injection B1 as E1. injection B2 as E2. injection B3 as E3.
  injection B5 as E5. injection B6 as E6. injection B7 as E7.
  assert (Eo : ordered_dates env d1 = ordered_dates env d2).
  { unfold ordered_dates. now rewrite E3, E7. }
  rewrite Eo. split; [|reflexivity].
  unfold make_event. now rewrite E1, E2, E5, E6.
Qed.

Lemma dtend_is_unused_witness :
  exists d1 d2,
    shape (VObject
             [ (JS.str "uid",
                VString (JS.str "1234567890-abc123-999999@afosterri.org"));
               (JS.str "summary", VString (JS.str "Team Meeting"));
               (JS.str "dtstart", Sample.date 2024 1 15) ]) = Zod.Valid d1 /\
    shape (VObject
             [ (JS.str "uid",
                VString (JS.str "1234567890-abc123-999999@afosterri.org"));
               (JS.str "summary", VString (JS.str "Team Meeting"));
               (JS.str "dtstart", Sample.date 2024 1 15);
               (JS.str "dtend", Sample.date 2024 1 20) ]) = Zod.Valid d2 /\
    dtend d1 <> dtend d2 /\
    make_event d1 (ordered_dates Sample.env d1)
    = make_event d2 (ordered_dates Sample.env d2).
Proof.
  do 2 eexists. split; [vm_compute; reflexivity|].
  split; [vm_compute; reflexivity|]. split; [discriminate|].
  refine (proj1 (dtend_is_unused Sample.env None
            [ (JS.str "uid",
               VString (JS.str "1234567890-abc123-999999@afosterri.org"));
              (JS.str "summary", VString (JS.str "Team Meeting"));
              (JS.str "dtstart", Sample.date 2024 1 15) ]
            [ (JS.str "uid",
               VString (JS.str "1234567890-abc123-999999@afosterri.org"));
              (JS.str "summary", VString (JS.str "Team Meeting"));
              (JS.str "dtstart", Sample.date 2024 1 15);
              (JS.str "dtend", Sample.date 2024 1 20) ]
            _ _ _ _ _)).
  - vm_compute. reflexivity.
  - vm_compute. reflexivity.
  - intros k Hk. cbn [JS.get].
    destruct (JS.eqb (JS.str "uid") k); [reflexivity|].
    destruct (JS.eqb (JS.str "summary") k); [reflexivity|].
    destruct (JS.eqb (JS.str "dtstart") k); [reflexivity|].
    destruct (JS.eqb (JS.str "dtend") k) eqn:E; [|reflexivity].
    apply eqb_eq in E. congruence.
Defined.

(** ** What is sent *)

Lemma utcOffset_quarter offset :
  offset mod 15 = 0 -> Utc.utcOffset offset = offset.
Proof. unfold Utc.utcOffset. intros H. div_arith. Qed.



Lemma stringToTS_days env offset d :
  offset mod 15 = 0 ->
  Upload.stringToTS env offset d
  = option_map (fun ms => ms / 86400000 * 86400) (Dayjs.of_string env d).
Proof.
  intros H.
  unfold Upload.stringToTS, Upload.dateTS, Utc.unix, Utc.unix_utc,
    Utc.startOf_date, Utc.utc, Utc.valueOf, Utc.of_unix, Utc.of_Date,
    Utc.msPerMinute, Dayjs.msPerDay.
  rewrite (utcOffset_quarter offset H).
  destruct (Dayjs.of_string env d) as [ms|]; cbn [option_map];
    [|reflexivity].
  f_equal. div_arith.
Qed.



Lemma validated_shape c obj d :
  validated c obj d -> shape (VObject obj) = Zod.Valid d.
Proof.
  unfold validated, validate. intros [_ H].
  destruct (shape (VObject obj)) as [d'|errs]; [|discriminate].
  now injection H as ->.
Qed.

Lemma cabin_of_label label :
  In label cabins ->
  cabin_of (Some label) = Null \/
  exists id, In (label, Val id) cabinMap /\ id <> []
             /\ cabin_of (Some label) = Val id.
Proof.
  unfold cabins, cabinMap. cbn [map fst].
  intros [<-|[<-|[<-|[<-|[<-|[<-|[]]]]]]];
    first [ left; vm_compute; reflexivity
          | right; eexists; split;
            [|split; [|vm_compute; reflexivity]];
            [cbn [In]; tauto|discriminate] ].
Qed.

(** Every stay that is sent has one reservation, and that reservation has
    either a room, which is one of the identifiers of [cabinMap], or the
    text Custom Event, never both and never neither. *)
Theorem room_or_custom_text env offset events dateCutoff :
  exists r,
    ImportICS env events dateCutoff = Ok r /\
    forall ev, In ev (parsed r) ->
      exists res,
        Upload.reservations (Upload.finalEvent env offset ev) = [res] /\
        Upload.name res = title ev /\
        ((exists label id,
            In (label, Val id) cabinMap /\
            Upload.roomId res = Some id /\ Upload.customText res = None) \/
         (Upload.roomId res = None /\
          Upload.customText res = Some (JS.str "Custom Event"))).
Proof.
  rewrite ImportICS_outcome. eexists. split; [reflexivity|].
  cbn [parsed]. intros ev Hev.
  apply In_accepted in Hev as (c & _ & Ho).
  apply outcome_accepted in Ho as (obj & d & Hv & _ & ->).
  apply validated_shape in Hv.
  unfold make_event, Upload.finalEvent. eexists.
  split; [reflexivity|]. cbn [Upload.name Upload.roomId Upload.customText title].
  split; [reflexivity|].
  destruct (shape_categories obj d Hv) as [[_ ->]|(label & _ & -> & Hin)].
  - right. split; reflexivity.
  - destruct (cabin_of_label label Hin) as [->|(id & Hid & Hne & ->)].
    + right. split; reflexivity.
    + left. exists label, id. split; [assumption|].
      split; [reflexivity|]. unfold Upload.custom_text_of.
      destruct id; [congruence|reflexivity].
Qed.

(** ** What is printed is read back *)

Ltac digit_cases r :=
  assert (r = 0 \/ r = 1 \/ r = 2 \/ r = 3 \/ r = 4 \/ r = 5 \/ r = 6
          \/ r = 7 \/ r = 8 \/ r = 9) as
    [->|[->|[->|[->|[->|[->|[->|[->|[->| ->]]]]]]]]] by lia.

Lemma to_little_uint_snoc p r :
  0 <= r <= 9 ->
  Pos.to_little_uint (Z.to_pos (10 * Z.pos p + r))
  = decimal_digit r (Pos.to_little_uint p).
Proof.
  intros Hr.
  pose proof (Unsigned.to_ldec_tenfold p) as T.
  change (Unsigned.to_lu (N.pos p)) with (Pos.to_little_uint p) in T.
  assert (S : forall n, Unsigned.to_lu (N.succ n)
                        = Decimal.Little.succ (Unsigned.to_lu n))
    by exact Unsigned.to_lu_succ.
  assert (E : forall k : N, Unsigned.to_lu (10 * N.pos p + k)
              = Nat.iter (N.to_nat k) Decimal.Little.succ
                  (Decimal.D0 (Pos.to_little_uint p))).
  { intros k. induction k using N.peano_ind.
    - rewrite N.add_0_r. exact T.
    - rewrite N.add_succ_r, S, IHk, N2Nat.inj_succ. reflexivity. }
  specialize (E (Z.to_N r)).
  replace (10 * N.pos p + Z.to_N r)%N
    with (N.pos (Z.to_pos (10 * Z.pos p + r))) in E by lia.
  change (Unsigned.to_lu (N.pos ?q)) with (Pos.to_little_uint q) in E.
  rewrite E. digit_cases r; reflexivity.
Qed.

Lemma str_revapp u v :
  str (NilEmpty.string_of_uint (Decimal.revapp u v))
  = str (NilEmpty.string_of_uint (Decimal.rev u))
    ++ str (NilEmpty.string_of_uint v).
Proof.
  revert v. unfold Decimal.rev.
  induction u as [|u IH|u IH|u IH|u IH|u IH|u IH|u IH|u IH|u IH|u IH];
    intros v; cbn [Decimal.revapp]; [reflexivity|..];
    rewrite (IH (_ Decimal.Nil)), IH, <- app_assoc; reflexivity.
Qed.

Lemma String_of_Z_pos p :
  String_of_Z (Z.pos p) = str (NilEmpty.string_of_uint (Pos.to_uint p)).
Proof.
  unfold String_of_Z, NilZero.string_of_int. cbn [Z.to_int].
  unfold NilZero.string_of_uint.
  pose proof (Unsigned.to_uint_nonnil p).
  destruct (Pos.to_uint p); [congruence|reflexivity..].
Qed.

(** The decimal digits of a number: those of its tenth, then its last. *)
Lemma String_of_Z_snoc q r :
  0 < q -> 0 <= r <= 9 ->
  String_of_Z (10 * q + r) = String_of_Z q ++ [Z.to_N (48 + r)].
Proof.
  intros Hq Hr. destruct q as [|p|p]; try lia.
  replace (10 * Z.pos p + r) with (Z.pos (Z.to_pos (10 * Z.pos p + r)))
    by lia.
  rewrite !String_of_Z_pos. unfold Pos.to_uint.
  rewrite (to_little_uint_snoc p r Hr).
  replace (Decimal.rev (decimal_digit r (Pos.to_little_uint p)))
    with (Decimal.revapp (Pos.to_little_uint p)
            (decimal_digit r Decimal.Nil))
    by (digit_cases r; reflexivity).
  rewrite str_revapp. f_equal.
  digit_cases r; reflexivity.
Qed.

Lemma String_of_Z_digit r :
  0 <= r <= 9 -> String_of_Z r = [Z.to_N (48 + r)].
Proof. intros Hr. digit_cases r; reflexivity. Qed.

(** The day number of the date of a day number is that day number. *)
Lemma days_round_trip z :
  let '(y, m, d) := Dayjs.civil_from_days z in
  Dayjs.days_from_civil y m d = z.
Proof.
  unfold Dayjs.civil_from_days. cbv zeta.
  set (z' := z + 719468).
  set (era := z' / 146097).
  set (doe := z' - era * 146097).
  assert (Hdoe : 0 <= doe < 146097) by (subst doe era; div_arith).
  assert (Hz : z = era * 146097 + doe - 719468) by (subst doe z'; lia).
  clearbody doe era. clear z'. subst z.
  set (yoe := (doe - doe / 1460 + doe / 36524 - doe / 146096) / 365).
  assert (Hyoe : 0 <= yoe <= 399) by (subst yoe; div_arith).
  set (doy := doe - (365 * yoe + yoe / 4 - yoe / 100)).
  assert (Hdoy : 0 <= doy <= 365) by (subst doy yoe; div_arith).
  assert (Hd : doe = yoe * 365 + yoe / 4 - yoe / 100 + doy)
    by (subst doy; lia).
  clearbody doy. clearbody yoe. subst doe.
  set (mp := (5 * doy + 2) / 153).
  assert (Hmp : 0 <= mp <= 11) by (subst mp; div_arith).
  assert (Hdd : (153 * mp + 2) / 5 + (doy - (153 * mp + 2) / 5 + 1) - 1 = doy)
    by lia.
  clearbody mp.
  unfold Dayjs.days_from_civil. cbv zeta.
  destruct (Z.ltb_spec mp 10); pick_branch.
  - destruct (Z.leb_spec (mp + 3) 2); [lia|]. pick_branch.
    destruct (Z.ltb_spec 2 (mp + 3)); [|lia]. pick_branch.
    replace (mp + 3 - 3) with mp by lia. rewrite Hdd.
    replace ((yoe + era * 400) / 400) with era by div_arith.
    replace (yoe + era * 400 - era * 400) with yoe by lia. lia.
  - destruct (Z.leb_spec (mp - 9) 2); [|lia]. pick_branch.
    destruct (Z.ltb_spec 2 (mp - 9)); [lia|]. pick_branch.
    replace (mp - 9 + 9) with mp by lia. rewrite Hdd.
    replace (yoe + era * 400 + 1 - 1) with (yoe + era * 400) by lia.
    replace ((yoe + era * 400) / 400) with era by div_arith.
    replace (yoe + era * 400 - era * 400) with yoe by lia. lia.
Qed.

Lemma String_of_Z_2 n :
  10 <= n <= 99 -> String_of_Z n = [digit (n / 10); digit (n mod 10)].
Proof.
  intros H. rewrite (Z.div_mod n 10) at 1 by lia.
  rewrite String_of_Z_snoc, String_of_Z_digit by div_arith. reflexivity.
Qed.

Lemma String_of_Z_3 n :
  100 <= n <= 999 ->
  String_of_Z n = [digit (n / 100); digit (n / 10 mod 10); digit (n mod 10)].
Proof.
  intros H. rewrite (Z.div_mod n 10) at 1 by lia.
  rewrite String_of_Z_snoc, String_of_Z_2 by div_arith.
  replace (n / 10 / 10) with (n / 100) by div_arith. reflexivity.
Qed.

Lemma String_of_Z_4 n :
  1000 <= n <= 9999 ->
  String_of_Z n = [digit (n / 1000); digit (n / 100 mod 10);
                   digit (n / 10 mod 10); digit (n mod 10)].
Proof.
  intros H. rewrite (Z.div_mod n 10) at 1 by lia.
  rewrite String_of_Z_snoc, String_of_Z_3 by div_arith.
  replace (n / 10 / 100) with (n / 1000) by div_arith.
  replace (n / 10 / 10 mod 10) with (n / 100 mod 10) by div_arith.
  reflexivity.
Qed.

Lemma padStart_2 n :
  0 <= n <= 99 -> Dayjs.padStart n 2 = [digit (n / 10); digit (n mod 10)].
Proof.
  intros H. unfold Dayjs.padStart. cbv zeta.
  destruct (Z.lt_ge_cases n 10).
  - rewrite String_of_Z_digit by lia.
    replace (n / 10) with 0 by div_arith.
    replace (n mod 10) with n by div_arith. reflexivity.
  - rewrite String_of_Z_2 by lia. reflexivity.
Qed.

Lemma padStart_4 n :
  0 <= n <= 9999 ->
  Dayjs.padStart n 4 = [digit (n / 1000); digit (n / 100 mod 10);
                        digit (n / 10 mod 10); digit (n mod 10)].
Proof.
  intros H. unfold Dayjs.padStart. cbv zeta.
  destruct (Z.lt_ge_cases n 10); [|destruct (Z.lt_ge_cases n 100);
    [|destruct (Z.lt_ge_cases n 1000)]].
  - rewrite String_of_Z_digit by lia.
    replace (n / 1000) with 0 by div_arith.
    replace (n / 100 mod 10) with 0 by div_arith.
    replace (n / 10 mod 10) with 0 by div_arith.
    replace (n mod 10) with n by div_arith. reflexivity.
  - rewrite String_of_Z_2 by lia.
    replace (n / 1000) with 0 by div_arith.
    replace (n / 100 mod 10) with 0 by div_arith.
    replace (n / 10 mod 10) with (n / 10) by div_arith. reflexivity.
  - rewrite String_of_Z_3 by lia.
    replace (n / 1000) with 0 by div_arith.
    replace (n / 100 mod 10) with (n / 100) by div_arith. reflexivity.
  - rewrite String_of_Z_4 by lia. reflexivity.
Qed.

Lemma is_digit_digit r : 0 <= r <= 9 -> is_digit (digit r) = true.
Proof. intros H. digit_cases r; reflexivity. Qed.

Lemma digit_value_digit r : 0 <= r <= 9 -> Dayjs.digit_value (digit r) = r.
Proof. intros H. unfold Dayjs.digit_value, digit. lia. Qed.

(** The library's pattern reads a printed date back as the midnight that
    starts the day, for the years that are printed with four digits and
    that [Date] does not move to the 1900s. *)
Lemma printed_date_is_read_back zone ms :
  -1440 < zone < 1440 ->
  100 <= fst (fst (printed_date ms)) <= 9999 ->
  Dayjs.of_iso_date zone (formatDate (Some ms))
  = Some (ms / Dayjs.msPerDay * Dayjs.msPerDay).
Proof.
  intros Hz Hy. rewrite formatDate_printed.
  pose proof (days_round_trip (ms / Dayjs.msPerDay)) as R.
  pose proof (civil_from_days_range (ms / Dayjs.msPerDay)) as [Hm Hd].
  unfold printed_date in *.
  destruct (Dayjs.civil_from_days (ms / Dayjs.msPerDay)) as [[y m] d].
  cbn [fst snd] in *.
  rewrite padStart_4, !padStart_2 by lia.
  cbn [app]. unfold Dayjs.of_iso_date. cbn [forallb].
  rewrite !is_digit_digit by div_arith.
  rewrite !digit_value_digit by div_arith.
  cbn [andb N.eqb Pos.eqb].
  replace (1000 * (y / 1000) + 100 * (y / 100 mod 10) + 10 * (y / 10 mod 10)
           + y mod 10) with y by div_arith.
  replace (10 * (m / 10) + m mod 10) with m by div_arith.
  replace (10 * (d / 10) + d mod 10) with d by div_arith.
  replace (if m - 1 =? 0 then 0 else m - 1) with (m - 1)
    by (destruct (Z.eqb_spec (m - 1) 0); lia).
  rewrite new_Date_ordinary by lia.
  replace (Date_year y) with y
    by (unfold Date_year; destruct (Z.leb_spec y 99); [lia|];
        now rewrite andb_false_r).
  now rewrite R.
Qed.

Lemma string_leb_digit a b s s' :
  0 <= a <= 9 -> 0 <= b <= 9 ->
  string_leb (digit a :: s) (digit b :: s')
  = if a <? b then true else if a =? b then string_leb s s' else false.
Proof.
  intros Ha Hb. cbn [string_leb]. unfold digit.
  destruct (Z.ltb_spec a b) as [L|L].
  - replace (Z.to_N (48 + a) <? Z.to_N (48 + b))%N with true
      by (symmetry; apply N.ltb_lt; lia).
    reflexivity.
  - replace (Z.to_N (48 + a) <? Z.to_N (48 + b))%N with false
      by (symmetry; apply N.ltb_ge; lia).
    destruct (Z.eqb_spec a b) as [E|E].
    + subst b. now rewrite N.eqb_refl.
    + replace (Z.to_N (48 + a) =? Z.to_N (48 + b))%N with false
        by (symmetry; apply N.eqb_neq; lia).
      reflexivity.
Qed.

Lemma string_leb_same c s s' :
  string_leb (c :: s) (c :: s') = string_leb s s'.
Proof. cbn [string_leb]. now rewrite N.ltb_irrefl, N.eqb_refl. Qed.

Lemma string_leb_refl s : string_leb s s = true.
Proof.
  induction s as [|c s IH]; [reflexivity|]. cbn [string_leb].
  rewrite N.ltb_irrefl, N.eqb_refl. exact IH.
Qed.

Lemma digits_4 n :
  0 <= n <= 9999 ->
  exists a b c d,
    0 <= a <= 9 /\ 0 <= b <= 9 /\ 0 <= c <= 9 /\ 0 <= d <= 9 /\
    n = 1000 * a + 100 * b + 10 * c + d /\
    Dayjs.padStart n 4 = [digit a; digit b; digit c; digit d].
Proof.
  intros H. exists (n / 1000), (n / 100 mod 10), (n / 10 mod 10), (n mod 10).
  rewrite padStart_4 by assumption.
  repeat (split; [div_arith|]). reflexivity.
Qed.

Lemma digits_2 n :
  0 <= n <= 99 ->
  exists a b,
    0 <= a <= 9 /\ 0 <= b <= 9 /\ n = 10 * a + b /\
    Dayjs.padStart n 2 = [digit a; digit b].
Proof.
  intros H. exists (n / 10), (n mod 10).
  rewrite padStart_2 by assumption.
  repeat (split; [div_arith|]). reflexivity.
Qed.

Ltac next_digit :=
  rewrite string_leb_digit by assumption;
  lazymatch goal with
  | |- (if ?a <? ?b then _ else _) = _ =>
      destruct (Z.ltb_spec a b); [reflexivity|];
      destruct (Z.eqb_spec a b); [subst|exfalso; lia]
  end.

Lemma texts_ordered t0 t1 :
  t0 <= t1 ->
  0 <= printed_year t0 -> printed_year t1 <= 9999 ->
  string_leb (formatDate (Some t0)) (formatDate (Some t1)) = true.
Proof.
  intros Ht H0 H1. rewrite !formatDate_printed.
  pose proof (printed_date_mono t0 t1 Ht) as Hle.
  unfold printed_year, printed_date in *.
  pose proof (civil_from_days_range (t0 / Dayjs.msPerDay)) as [Hm0 Hd0].
  pose proof (civil_from_days_range (t1 / Dayjs.msPerDay)) as [Hm1 Hd1].
  destruct (Dayjs.civil_from_days (t0 / Dayjs.msPerDay)) as [[y0 m0] d0].
  destruct (Dayjs.civil_from_days (t1 / Dayjs.msPerDay)) as [[y1 m1] d1].
  cbn [fst snd calendar_le] in *. cbv beta iota.
  destruct (digits_4 y0) as (a0 & b0 & c0 & e0 & ? & ? & ? & ? & -> & ->);
    [lia|].
  destruct (digits_4 y1) as (a1 & b1 & c1 & e1 & ? & ? & ? & ? & -> & ->);
    [lia|].
  destruct (digits_2 m0) as (f0 & g0 & ? & ? & -> & ->); [lia|].
  destruct (digits_2 m1) as (f1 & g1 & ? & ? & -> & ->); [lia|].
  destruct (digits_2 d0) as (h0 & i0 & ? & ? & -> & ->); [lia|].
  destruct (digits_2 d1) as (h1 & i1 & ? & ? & -> & ->); [lia|].
  cbn [app].
  do 4 next_digit. rewrite string_leb_same.
  do 2 next_digit. rewrite string_leb_same.
  do 2 next_digit. reflexivity.
Qed.

Lemma printed_year_mono t0 t1 :
  t0 <= t1 -> printed_year t0 <= printed_year t1.
Proof.
  intros H. pose proof (printed_date_mono t0 t1 H) as L.
  unfold printed_year. destruct (printed_date t0) as [[y0 m0] d0].
  destruct (printed_date t1) as [[y1 m1] d1].
  cbn [calendar_le fst] in *. lia.
Qed.

Lemma stringToTS_formatDate env offset ms :
  reads_iso_dates env -> offset mod 15 = 0 ->
  100 <= printed_year ms <= 9999 ->
  Upload.stringToTS env offset (formatDate (Some ms))
  = Some (ms / 86400000 * 86400).
Proof.
  intros Henv Hq Hy. rewrite stringToTS_days by assumption.
  rewrite (Henv _ _ (printed_date_is_read_back _ ms (zone_bound env) Hy)).
  cbn [option_map]. unfold Dayjs.msPerDay. f_equal.
  rewrite Z.div_mul by discriminate. reflexivity.
Qed.

(** [formatDate] and [stringToTS] compose: the text printed for a time
    value whose year has four digits and is not below 100 is sent as the
    seconds of midnight UTC of the day printed, in every time zone. *)
Theorem printed_day_is_sent env offset ms :
  reads_iso_dates env -> offset mod 15 = 0 ->
  100 <= printed_year ms <= 9999 ->
  Upload.stringToTS env offset (formatDate (Some ms))
  = Some (ms / 86400000 * 86400).
Proof. exact (stringToTS_formatDate env offset ms). Qed.

Lemma reads_iso_dates_sample : reads_iso_dates Sample.env.
Proof. intros s t H. exact H. Qed.

Lemma printed_day_witness :
  Upload.stringToTS Sample.env (-300)
    (formatDate (Some 1705276800000)) = Some 1705276800.
Proof.
  apply (printed_day_is_sent Sample.env (-300) 1705276800000).
  - exact reads_iso_dates_sample.
  - reflexivity.
  - vm_compute. split; discriminate.
Defined.

(** Every stay that is sent for a record whose two boundaries are valid
    dates starts at midnight UTC of the first day of the range and ends at
    midnight UTC of the last, so it does not end before it starts, when the
    years of the range have four digits and are not below 100. *)
Theorem sent_dates_are_ordered env offset events dateCutoff :
  reads_iso_dates env -> offset mod 15 = 0 ->
  exists r,
    ImportICS env events dateCutoff = Ok r /\
    forall ev, In ev (parsed r) ->
      exists a b,
        start (dates ev) = formatDate a /\
        end_ (dates ev) = formatDate b /\
        forall t0 t1,
          a = Some t0 -> b = Some t1 ->
          t0 <= t1 /\
          (100 <= printed_year t0 -> printed_year t1 <= 9999 ->
           Upload.dateStart (Upload.finalEvent env offset ev)
           = Some (t0 / 86400000 * 86400) /\
           Upload.dateEnd (Upload.finalEvent env offset ev)
           = Some (t1 / 86400000 * 86400) /\
           t0 / 86400000 * 86400 <= t1 / 86400000 * 86400).
Proof.
  intros Henv Hq. rewrite ImportICS_outcome. eexists. split; [reflexivity|].
  cbn [parsed]. intros ev Hev.
  apply In_accepted in Hev as (c & _ & Ho).
  apply outcome_accepted in Ho as (obj & d & _ & _ & ->).
  exists (fst (ordered_dates env d)), (snd (ordered_dates env d)).
  split; [reflexivity|]. split; [reflexivity|].
  intros t0 t1 E0 E1.
  assert (E : ordered_dates env d = (Some t0, Some t1))
    by (rewrite <- E0, <- E1; apply surjective_pairing).
  pose proof (ordered_dates_le env d t0 t1 E) as Ht.
  split; [assumption|]. rewrite E. unfold make_event, Upload.finalEvent.
  cbn [dates start end_ fst snd Upload.dateStart Upload.dateEnd].
  intros H0 H1. pose proof (printed_year_mono t0 t1 Ht).
  rewrite !stringToTS_formatDate by (assumption || lia).
  split; [reflexivity|]. split; [reflexivity|].
  assert (t0 / 86400000 <= t1 / 86400000) by (apply Z.div_le_mono; lia).
  lia.
Qed.

Lemma sent_dates_witness :
  exists r,
    ImportICS Sample.env [Sample.reversed] None = Ok r /\
    forall ev, In ev (parsed r) ->
      exists a b,
        start (dates ev) = formatDate a /\
        end_ (dates ev) = formatDate b /\
        forall t0 t1,
          a = Some t0 -> b = Some t1 ->
          t0 <= t1 /\
          (100 <= printed_year t0 -> printed_year t1 <= 9999 ->
           Upload.dateStart (Upload.finalEvent Sample.env 120 ev)
           = Some (t0 / 86400000 * 86400) /\
           Upload.dateEnd (Upload.finalEvent Sample.env 120 ev)
           = Some (t1 / 86400000 * 86400) /\
           t0 / 86400000 * 86400 <= t1 / 86400000 * 86400).
Proof.
  exact (sent_dates_are_ordered Sample.env 120 [Sample.reversed] None
           reads_iso_dates_sample eq_refl).
Defined.

(** The two texts of an accepted record whose two boundaries are valid
    dates are in the order of strings, the start first, when the years of
    the range are from 0 to 9999. *)
Theorem accepted_texts_in_order env events dateCutoff :
  exists r,
    ImportICS env events dateCutoff = Ok r /\
    forall ev, In ev (parsed r) ->
      exists a b,
        start (dates ev) = formatDate a /\
        end_ (dates ev) = formatDate b /\
        forall t0 t1,
          a = Some t0 -> b = Some t1 ->
          0 <= printed_year t0 -> printed_year t1 <= 9999 ->
          string_leb (start (dates ev)) (end_ (dates ev)) = true.
Proof.
  rewrite ImportICS_outcome. eexists. split; [reflexivity|].
  cbn [parsed]. intros ev Hev.
  apply In_accepted in Hev as (c & _ & Ho).
  apply outcome_accepted in Ho as (obj & d & _ & _ & ->).
  exists (fst (ordered_dates env d)), (snd (ordered_dates env d)).
  split; [reflexivity|]. split; [reflexivity|].
  intros t0 t1 E0 E1 H0 H1.
  assert (E : ordered_dates env d = (Some t0, Some t1))
    by (rewrite <- E0, <- E1; apply surjective_pairing).
  pose proof (ordered_dates_le env d t0 t1 E) as Ht.
  unfold make_event. cbn [dates start end_]. rewrite E0, E1.
  now apply texts_ordered.
Qed.

Example reversed_is_sent_in_order :
  option_map (map (fun s => (Upload.dateStart s, Upload.dateEnd s)))
    (Upload.finalEvents Sample.env (-300)
       (match ImportICS Sample.env [Sample.reversed] None with
        | Ok r => Some (parsed r)
        | Throw _ => None
        end))
  = Some [(Some 1704844800, Some 1705276800)].
Proof. vm_compute. reflexivity. Qed.

(** ** A boundary that is no date *)

(** The text of a date is never the text of an invalid one. *)
Lemma formatDate_is_a_date t : formatDate (Some t) <> JS.str "Invalid Date".
Proof.
  intros E. apply (f_equal (@rev codeunit)) in E.
  rewrite formatDate_printed in E.
  pose proof (civil_from_days_range (t / Dayjs.msPerDay)) as [_ Hd].
  unfold printed_date in E.
  destruct (Dayjs.civil_from_days (t / Dayjs.msPerDay)) as [[y m] d].
  cbn [snd] in Hd. rewrite !rev_app_distr, padStart_2 in E by lia.
  cbn [rev app] in E. injection E as E _. unfold digit in E.
  assert (0 <= d mod 10 <= 9) by div_arith. lia.
Qed.

(** C1 as stated fails: the run accepts a record whose start is no date.
    The event starts on the day after the last day of [Date] and recurs
    until 2024-01-15; nothing is swapped, the start is printed as Invalid
    Date, which is the text of no date, and the two texts are not in
    order. *)
Lemma invalid_start_is_not_ordered :
  exists r ev,
    ImportICS Sample.env [Sample.beyond_Date] None = Ok r /\
    parsed r = [ev] /\
    start (dates ev) = JS.str "Invalid Date" /\
    (forall t, start (dates ev) <> formatDate (Some t)) /\
    end_ (dates ev) = JS.str "2024-01-15" /\
    string_leb (start (dates ev)) (end_ (dates ev)) = false.
Proof.
  do 2 eexists. split; [vm_compute; reflexivity|].
  split; [reflexivity|]. split; [reflexivity|]. split; [|split; reflexivity].
  intros t E. apply (formatDate_is_a_date t). symmetry. exact E.
Qed.

(** ** Where the fields of a record come from *)

Lemma transform_string_valid {B} (f : jsstring -> Exc B) v b :
  Zod.transform Zod.string f v = Zod.Valid b ->
  exists s, v = VString s /\ f s = Ok b.
Proof.
  unfold Zod.transform, Zod.string.
  destruct v as [| | | |s|]; try discriminate.
  destruct (f s) as [b'|e] eqn:E; [|discriminate].
  intros [= <-]. now exists s.
Qed.

Lemma fixApostrophe_none s : fixApostrophe (Some s) = None <-> s = [].
Proof.
  unfold fixApostrophe. destruct s as [|c s]; cbn [List.length Nat.eqb].
  - split; reflexivity.
  - split; discriminate.
Qed.

(** Every field of text of an accepted record is traced to the flat record
    of its component: the import id is the token of the uid, which is a
    string that [extractCalciumId] accepts; the title is the repaired
    summary, which is a string, and is missing exactly when the summary is
    the empty string; the description is the repaired description, missing
    when there is none or an empty one. *)
Theorem accepted_fields_are_traced env events dateCutoff :
  exists r,
    ImportICS env events dateCutoff = Ok r /\
    forall ev, In ev (parsed r) ->
      exists c obj u s,
        In c events /\
        collect (ICAL.getAllProperties c) [] = Ok obj /\
        JS.get obj (JS.str "uid") = VString u /\
        extractCalciumId u = Ok (importId ev) /\
        JS.get obj (JS.str "summary") = VString s /\
        title ev = fixApostrophe (Some s) /\
        (title ev = None <-> s = []) /\
        ((JS.get obj (JS.str "description") = VUndefined /\
          event_description ev = None) \/
         exists t, JS.get obj (JS.str "description") = VString t /\
                   event_description ev = fixApostrophe (Some t)).
Proof.
  rewrite ImportICS_outcome. eexists. split; [reflexivity|].
  cbn [parsed]. intros ev Hev.
  apply In_accepted in Hev as (c & Hc & Ho).
  apply outcome_accepted in Ho as (obj & d & Hv & _ & ->).
  pose proof (proj1 Hv) as Hcol. apply validated_shape in Hv.
  apply shape_valid in Hv as (Hu & Hs & _ & _ & _ & Hd & _).
  apply field_valid, transform_string_valid in Hu as (u & Eu & Hu).
  apply field_valid, transform_string_valid in Hs as (s & Es & Hs).
  injection Hs as Hs.
  exists c, obj, u, s. unfold make_event.
  cbn [importId title event_description].
  repeat (split; [assumption || (symmetry; assumption)|]).
  split; [rewrite <- Hs; apply fixApostrophe_none|].
  apply field_valid in Hd. unfold Zod.transform, Zod.optional in Hd.
  destruct (JS.get obj (JS.str "description")) as [| | | |t|];
    try discriminate; cbn [Zod.string] in Hd; injection Hd as Hd.
  - left. split; [reflexivity|]. now rewrite <- Hd.
  - right. exists t. split; [reflexivity|]. now rewrite <- Hd.
Qed.

Example empty_summary_has_no_title :
  match ImportICS Sample.env
          [Sample.vevent "1234567890-abc123-999999@afosterri.org" ""
             2024 1 15 []] None with
  | Ok r => map title (parsed r)
  | Throw _ => []
  end = [None].
Proof. vm_compute. reflexivity. Qed.

(** Beyond the year 9999 the texts no longer compare as the dates do. *)
Example five_digit_year_texts :
  formatDate (Some (Dayjs.days_from_civil 9999 12 31 * Dayjs.msPerDay))
  = JS.str "9999-12-31" /\
  formatDate (Some (Dayjs.days_from_civil 10000 1 1 * Dayjs.msPerDay))
  = JS.str "10000-01-01" /\
  string_leb (JS.str "9999-12-31") (JS.str "10000-01-01") = false.
Proof. vm_compute. repeat split. Qed.
